(** * Roll-combination search and rating estimator of the artifact calculator

    A shallow embedding of [app/utils/find-combinations.js] ([round1],
    [subsetSum], [findCombos]) and of the rating module that calls it
    ([TEST_ARTIFACT], [ratePower]), followed by the properties the
    specification states about them.

    JavaScript numbers are IEEE 754 binary64 values.  They are modelled by
    [spec_float] with the binary64 parameters, whose operations are the
    correctly rounded ones, so every sum, product and quotient below is the
    one a JavaScript engine computes. *)

From Equations Require Import Equations.
From Stdlib Require Import List Arith ZArith Lia Bool Ascii String.
From Stdlib Require Import Permutation.
From Stdlib Require Import Floats.SpecFloat.
Import ListNotations.

(* ===================================================================== *)
(** ** JavaScript numbers *)
(* ===================================================================== *)

Definition prec : Z := 53.
Definition emax : Z := 1024.

Definition number : Type := spec_float.

Definition NaN : number := S754_nan.
Definition Infinity : number := S754_infinity false.
Definition pos_zero : number := S754_zero false.

Definition num_add : number -> number -> number := SFadd prec emax.
Definition num_sub : number -> number -> number := SFsub prec emax.
Definition num_mul : number -> number -> number := SFmul prec emax.
Definition num_div : number -> number -> number := SFdiv prec emax.

(** [a === b] on two numbers: false as soon as one is NaN, true on the two
    zeros. *)
Definition strict_eq (a b : number) : bool := SFeqb a b.

(** [a >= b] on two numbers: false as soon as one is NaN. *)
Definition num_ge (a b : number) : bool := SFleb b a.

(** [a < b] and [a > b]. *)
Definition num_lt (a b : number) : bool := SFltb a b.
Definition num_gt (a b : number) : bool := SFltb b a.

Definition is_nan (a : number) : bool :=
  match a with S754_nan => true | _ => false end.

(** The number nearest to the integer [n] (ties to even); exact for
    [|n| <= 2^53]. *)
Definition num_of_Z (n : Z) : number := binary_normalize prec emax n 0 false.

(** [Math.round(x)]: the integer nearest to [x], the one towards +Infinity on
    a tie, that is [floor(x + 1/2)] computed exactly.  A finite number with a
    non-negative exponent is already an integer.  Otherwise [x] is
    [+-m / 2^(-e)] with [m < 2^53], so the result is below [2^53] in absolute
    value and [num_of_Z] is exact.  A zero result keeps the sign of [x]
    ([Math.round(-0.2)] is [-0]). *)
Definition Math_round (x : number) : number :=
  match x with
  | S754_finite s m e =>
      if (0 <=? e)%Z then x
      else
        let n := Z.shiftr (2 * cond_Zopp s (Zpos m) + 2 ^ (- e)) (1 - e) in
        if (n =? 0)%Z then S754_zero s else num_of_Z n
  | _ => x
  end.

(** [round1]: rounds a number to one decimal place. *)
Definition round1 (n : number) : number :=
  num_div (Math_round (num_mul n (num_of_Z 10))) (num_of_Z 10).

(* ===================================================================== *)
(** ** JavaScript values and the [Number(...)] coercion *)
(* ===================================================================== *)

(** The values this code meets: the primitive values a JSON document or a
    missing property can put in the place of a target or of a stat name, and
    [VInherited key], the value a plain object inherits from
    [Object.prototype] under [key]: a built-in function ([toString],
    [constructor], ...) or, under [__proto__], the prototype object
    itself. *)
Inductive jsval : Type :=
| VUndef
| VNull
| VBool (b : bool)
| VNum (n : number)
| VStr (s : string)
| VInherited (key : string).

Definition chars : Type := list ascii.

(** White space and line terminators.  A string is read as a sequence of
    code units below 256: tab, line feed, vertical tab, form feed, carriage
    return, space and no-break space. *)
Definition is_space (c : ascii) : bool :=
  let n := nat_of_ascii c in
  (n =? 9) || (n =? 10) || (n =? 11) || (n =? 12) || (n =? 13) || (n =? 32)
  || (n =? 160).

Fixpoint trim_start (s : chars) : chars :=
  match s with
  | c :: r => if is_space c then trim_start r else s
  | [] => []
  end.

Definition trim (s : chars) : chars := rev (trim_start (rev (trim_start s))).

(** The value of a digit in bases up to 16. *)
Definition digit_value (c : ascii) : option Z :=
  let n := Z.of_nat (nat_of_ascii c) in
  if ((48 <=? n) && (n <=? 57))%Z then Some (n - 48)%Z
  else if ((97 <=? n) && (n <=? 102))%Z then Some (n - 87)%Z
  else if ((65 <=? n) && (n <=? 70))%Z then Some (n - 55)%Z
  else None.

Definition is_digit (base : Z) (c : ascii) : bool :=
  match digit_value c with
  | Some d => (d <? base)%Z
  | None => false
  end.

(** Leading digits of [s] in [base], and what follows them. *)
Fixpoint span_digits (base : Z) (s : chars) : chars * chars :=
  match s with
  | c :: r =>
      if is_digit base c
      then let (ds, rest) := span_digits base r in (c :: ds, rest)
      else ([], s)
  | [] => ([], [])
  end.

Definition digits_value (base : Z) (ds : chars) : Z :=
  fold_left
    (fun acc c => match digit_value c with
                  | Some d => (acc * base + d)%Z
                  | None => acc
                  end) ds 0%Z.

(** An optional sign: [true] for a minus. *)
Definition split_sign (s : chars) : bool * chars :=
  match s with
  | "-"%char :: r => (true, r)
  | "+"%char :: r => (false, r)
  | _ => (false, s)
  end.

(** [ExponentPart?] at the end of a decimal literal: [None] when what is left
    is not an exponent part. *)
Definition exponent_part (s : chars) : option Z :=
  match s with
  | [] => Some 0%Z
  | c :: r =>
      if (Ascii.eqb c "e" || Ascii.eqb c "E")%bool then
        let (neg, r') := split_sign r in
        match span_digits 10 r' with
        | ((_ :: _) as ds, []) => Some (cond_Zopp neg (digits_value 10 ds))
        | _ => None
        end
      else None
  end.

(** The number nearest to [(-1)^neg * m * 10^e10] (one rounding, ties to
    even). *)
Definition decimal_to_number (neg : bool) (m e10 : Z) : number :=
  match m with
  | Zpos p =>
      match e10 with
      | Zneg k =>
          num_div (S754_finite neg p 0) (S754_finite false (10 ^ k)%positive 0)
      | _ => binary_normalize prec emax (cond_Zopp neg (m * 10 ^ e10)) 0 false
      end
  | _ => S754_zero neg
  end.

(** [StrUnsignedDecimalLiteral] without [Infinity]: digits, an optional
    fraction, an optional exponent, with a digit before or after the dot. *)
Definition unsigned_decimal (neg : bool) (s : chars) : option number :=
  let (ip, r1) := span_digits 10 s in
  let (fp, r2) :=
    match r1 with
    | "."%char :: r => span_digits 10 r
    | _ => ([], r1)
    end in
  match ip ++ fp with
  | [] => None
  | ds =>
      match exponent_part r2 with
      | Some ex =>
          Some (decimal_to_number neg (digits_value 10 ds)
                                  (ex - Z.of_nat (List.length fp)))
      | None => None
      end
  end.

(** [0x], [0o] and [0b] literals (no sign allowed). *)
Definition non_decimal (s : chars) : option number :=
  match s with
  | "0"%char :: p :: r =>
      let base :=
        if (Ascii.eqb p "x" || Ascii.eqb p "X")%bool then Some 16%Z
        else if (Ascii.eqb p "o" || Ascii.eqb p "O")%bool then Some 8%Z
        else if (Ascii.eqb p "b" || Ascii.eqb p "B")%bool then Some 2%Z
        else None in
      match base with
      | Some b =>
          match span_digits b r with
          | ((_ :: _) as ds, []) => Some (num_of_Z (digits_value b ds))
          | _ => None
          end
      | None => None
      end
  | _ => None
  end.

(** [StringToNumber]: the empty or blank string is [+0], a numeric literal is
    its value, anything else is [NaN]. *)
Definition StringToNumber (str : string) : number :=
  let s := trim (list_ascii_of_string str) in
  match s with
  | [] => pos_zero
  | _ =>
      match non_decimal s with
      | Some n => n
      | None =>
          let (neg, r) := split_sign s in
          if list_eq_dec ascii_dec r (list_ascii_of_string "Infinity")
          then S754_infinity neg
          else match unsigned_decimal neg r with
               | Some n => n
               | None => NaN
               end
      end
  end.

(** [Number(v)].  A built-in function and the prototype object convert to a
    string that is no numeric literal, so their number is NaN. *)
Definition Number (v : jsval) : number :=
  match v with
  | VUndef => NaN
  | VNull => pos_zero
  | VBool true => num_of_Z 1
  | VBool false => pos_zero
  | VNum n => n
  | VStr s => StringToNumber s
  | VInherited _ => NaN
  end.

(** A number written as a decimal literal. *)
Definition lit (s : string) : number := StringToNumber s.

(* ===================================================================== *)
(** ** Completions: a call returns or throws *)
(* ===================================================================== *)

(** The two [TypeError]s this code can raise: iterating a value that is not
    iterable, and calling a value that is not a function. *)
Inductive error : Type :=
| TypeError_not_iterable
| TypeError_not_a_function.

Inductive completion (A : Type) : Type :=
| Normal (a : A)
| Throw (e : error).

Arguments Normal {A} a.
Arguments Throw {A} e.

(** [for (const x of xs) body], the state threaded through the iterations;
    a throwing iteration ends the loop. *)
Fixpoint for_of {A S : Type} (xs : list A) (body : A -> S -> completion S)
  (s : S) : completion S :=
  match xs with
  | [] => Normal s
  | x :: rest =>
      match body x s with
      | Normal s' => for_of rest body s'
      | Throw e => Throw e
      end
  end.

(* ===================================================================== *)
(** ** [subsetSum] *)
(* ===================================================================== *)

(** [partials.reduce((acc, n) => (acc + n), 0)]. *)
Definition sum_of (partials : list number) : number :=
  fold_left num_add partials pos_zero.

(** The [sum] that [subsetSum] computes first: the sum of the partials,
    rounded to one decimal place or to a whole number. *)
Definition rounded_sum (oneDecimal : bool) (partials : list number) : number :=
  if oneDecimal then round1 (sum_of partials) else Math_round (sum_of partials).

(** [if (sum === target) { found.push(partials); }]. *)
Definition record (target : number) (oneDecimal : bool)
  (found : list (list number)) (partials : list number) : list (list number) :=
  if strict_eq (rounded_sum oneDecimal partials) target
  then found ++ [partials] else found.

(** [subsetSum(possibleRolls, target, found, oneDecimal, partials)].  The
    array [found] is mutated by [push]; here it is passed in and returned.
    [possibleRolls] is [None] when the caller passed no array but a value
    that the [for ... of] loop refuses to iterate: [undefined], as a table
    gives for a missing key, or a function or object that the table
    inherits.  The recursion is on a growing list:
    it ends because a list of more than six partials halts the branch. *)
Equations? subsetSum (possibleRolls : option (list number)) (target : number)
  (found : list (list number)) (oneDecimal : bool) (partials : list number)
  : completion (list (list number)) by wf (7 - List.length partials) lt :=
subsetSum possibleRolls target found oneDecimal partials
  with num_ge (rounded_sum oneDecimal partials) target := {
  | true => Normal (record target oneDecimal found partials)
  | false with le_lt_dec (List.length partials) 6 := {
    | right _ => Normal (record target oneDecimal found partials)
    | left Hle with possibleRolls := {
      | None => Throw TypeError_not_iterable
      | Some rolls =>
          for_of rolls
            (fun roll found' =>
               subsetSum possibleRolls target found' oneDecimal
                         (partials ++ [roll]))
            (record target oneDecimal found partials) } } }.
Proof.
  rewrite length_app, Nat.add_comm; simpl.
  remember (List.length partials) as n. clear - Hle.
  do 7 (destruct n as [|n]; [simpl; lia|]). lia.
Qed.

(* ===================================================================== *)
(** ** Sorting and removing duplicates *)
(* ===================================================================== *)

(** [combo.sort((n1, n2) => (n1 - n2))].  The comparator puts [n1] after [n2]
    when [n1 - n2 > 0] and keeps their order when the difference is zero or
    NaN; the sort is stable, so on the numbers a combination holds (none is
    NaN) the result is the stable insertion sort. *)
Definition comparator (n1 n2 : number) : number := num_sub n1 n2.

Fixpoint insert_sorted (x : number) (l : list number) : list number :=
  match l with
  | [] => [x]
  | y :: r =>
      if num_gt (comparator x y) pos_zero then y :: insert_sorted x r
      else x :: l
  end.

Definition sort (combo : list number) : list number :=
  fold_right insert_sorted [] combo.

(** A list in which no element is followed by one that the comparator puts
    before it: for neighbours [x], [y] the difference [x - y] is not above
    zero. *)
Fixpoint ascending (l : list number) : bool :=
  match l with
  | [] => true
  | x :: r =>
      match r with
      | [] => true
      | y :: _ => negb (num_gt (comparator x y) pos_zero) && ascending r
      end
  end.

(** The property key of a combination.  [combinationsFound[combo]] converts
    the array to the string of its elements joined by commas.  The string of
    a number determines the number, except that both zeros print as [0]; so
    the key is the list of the elements with [-0] replaced by [+0]. *)
Definition number_key (n : number) : number :=
  match n with
  | S754_zero _ => pos_zero
  | _ => n
  end.

Definition key : Type := list number.

Definition key_of (combo : list number) : key := map number_key combo.

Definition number_eq_dec (a b : number) : {a = b} + {a <> b}.
Proof.
  decide equality;
    first [apply bool_dec | apply Pos.eq_dec | apply Z.eq_dec].
Defined.

Definition key_eq_dec : forall k1 k2 : key, {k1 = k2} + {k1 <> k2} :=
  list_eq_dec number_eq_dec.

Definition key_eqb (k1 k2 : key) : bool :=
  if key_eq_dec k1 k2 then true else false.

(** A key that is an array index: the string of one whole number between 0
    and [2^32 - 2]. *)
Definition array_index (k : key) : option Z :=
  match k with
  | [S754_zero _] => Some 0%Z
  | [S754_finite false m e] =>
      if (0 <=? e)%Z then
        if (Zpos m * 2 ^ e <? 2 ^ 32 - 1)%Z
        then Some (Zpos m * 2 ^ e)%Z else None
      else if ((Zpos m mod 2 ^ (- e) =? 0)
               && (Zpos m / 2 ^ (- e) <? 2 ^ 32 - 1))%Z
           then Some (Zpos m / 2 ^ (- e))%Z
           else None
  | _ => None
  end.

(** An object whose properties are added by assignment: the keys in the
    order they were created, each with its current value. *)
Definition object (V : Type) : Type := list (key * V).

(** [obj[k] = v]: an existing property is overwritten in place, a new one is
    added last. *)
Fixpoint obj_set {V : Type} (k : key) (v : V) (o : object V) : object V :=
  match o with
  | [] => [(k, v)]
  | (k', v') :: rest =>
      if key_eqb k k' then (k, v) :: rest else (k', v') :: obj_set k v rest
  end.

Fixpoint insert_index {V : Type} (i : Z) (kv : key * V)
  (l : list (Z * (key * V))) : list (Z * (key * V)) :=
  match l with
  | [] => [(i, kv)]
  | (j, kv') :: rest =>
      if (i <? j)%Z then (i, kv) :: l else (j, kv') :: insert_index i kv rest
  end.

(** The properties whose key is an array index, in ascending index order. *)
Fixpoint index_properties {V : Type} (o : object V) : list (Z * (key * V)) :=
  match o with
  | [] => []
  | (k, v) :: rest =>
      match array_index k with
      | Some i => insert_index i (k, v) (index_properties rest)
      | None => index_properties rest
      end
  end.

(** The other properties, in creation order. *)
Definition string_properties {V : Type} (o : object V) : object V :=
  filter (fun kv => match array_index (fst kv) with
                    | Some _ => false
                    | None => true
                    end) o.

(** The order in which the properties of an object are enumerated:
    array-index keys first, in ascending order, then the other keys in
    creation order. *)
Definition properties_in_order {V : Type} (o : object V) : object V :=
  map snd (index_properties o) ++ string_properties o.

(** [Object.values(o)]. *)
Definition Object_values {V : Type} (o : object V) : list V :=
  map snd (properties_in_order o).

(** [combinationsFoundRaw.forEach((combo, i) => (combinationsFound[combo] = i))]
    from index [i] on. *)
Fixpoint index_combos (raw : list (list number)) (i : nat) (o : object nat)
  : object nat :=
  match raw with
  | [] => o
  | combo :: rest => index_combos rest (S i) (obj_set (key_of combo) i o)
  end.

(** What [index_combos] maintains: the keys of the object are distinct,
    every property holds the index of a combination with that key, and
    every combination seen so far has its key in the object. *)
Definition indexes (seen : list (list number)) (o : object nat) : Prop :=
  NoDup (map fst o)
  /\ (forall k j, In (k, j) o ->
                  j < List.length seen /\ key_of (nth j seen []) = k)
  /\ (forall c, In c seen -> In (key_of c) (map fst o)).

(** The post-processing of [findCombos]: sort every combination, index them
    by key, and return the combination each key last pointed to.  Every
    index in the object is that of a combination, so the default of [nth] is
    never returned. *)
Definition remove_duplicates (combinationsFoundRaw : list (list number))
  : list (list number) :=
  let sorted := map sort combinationsFoundRaw in
  let combinationsFound := index_combos sorted 0 [] in
  map (fun i => nth i sorted []) (Object_values combinationsFound).

(* ===================================================================== *)
(** ** [findCombos] *)
(* ===================================================================== *)

Section FindCombos.

(** [DECIMAL_STATS] is imported from [../data/artifact-data]: the names of
    the stats that are rounded to one decimal place. *)
Variable DECIMAL_STATS : list string.

(** [DECIMAL_STATS.includes(stat)]. *)
Definition includes (stat : jsval) : bool :=
  match stat with
  | VStr s => existsb (String.eqb s) DECIMAL_STATS
  | _ => false
  end.

(** [findCombos(possibleRolls, target, stat)]. *)
Definition findCombos (possibleRolls : option (list number))
  (target : jsval) (stat : jsval) : completion (list (list number)) :=
  let target := Number target in
  let oneDecimal := includes stat in
  match subsetSum possibleRolls target [] oneDecimal [] with
  | Normal combinationsFoundRaw =>
      Normal (remove_duplicates combinationsFoundRaw)
  | Throw e => Throw e
  end.

End FindCombos.

(* ===================================================================== *)
(** ** The rating module: [TEST_ARTIFACT] and [ratePower] *)
(* ===================================================================== *)

(** A substat object.  [weight] and [numRolls] are the properties that
    [ratePower] assigns: [None] while the object does not have them. *)
Record substat : Type := mkSubstat {
  stat : string;
  amount : jsval;
  weight : option jsval;
  numRolls : option (list (list number))
}.

Record artifact : Type := mkArtifact {
  name : string;
  slot : string;
  level : string;
  mainStat : string;
  mainStatAmount : string;
  substats : list substat
}.

Definition TEST_ARTIFACT : artifact :=
  {| name := "Viridescent Venerer's Vessel";
     slot := "goblet";
     level := "20";
     mainStat := "Atk%";
     mainStatAmount := "46.6";
     substats :=
       [ {| stat := "critRate"; amount := VStr "12.8";
            weight := None; numRolls := None |};
         {| stat := "critDmg"; amount := VStr "14.0";
            weight := None; numRolls := None |};
         {| stat := "Def%"; amount := VStr "5.8";
            weight := None; numRolls := None |};
         {| stat := "Def"; amount := VStr "21";
            weight := None; numRolls := None |} ] |}.

(** A lookup table keyed by stat name: the own properties of an object
    literal of the data module.  [get t k] is the own property [k], [None]
    when the table has none. *)
Definition table (V : Type) : Type := list (string * V).

Fixpoint get {V : Type} (t : table V) (k : string) : option V :=
  match t with
  | [] => None
  | (k', v) :: rest => if String.eqb k k' then Some v else get rest k
  end.

(** The keys that every object literal inherits from [Object.prototype].
    [table[k]] for such a key that is no own property is the inherited
    function or object, not [undefined]. *)
Definition Object_prototype_keys : list string :=
  [ "constructor"; "__defineGetter__"; "__defineSetter__"; "hasOwnProperty";
    "__lookupGetter__"; "__lookupSetter__"; "isPrototypeOf";
    "propertyIsEnumerable"; "toString"; "valueOf"; "__proto__";
    "toLocaleString" ]%string.

Definition inherited (k : string) : bool :=
  existsb (String.eqb k) Object_prototype_keys.

(** What [findCombos] is to its callers. *)
Definition finder : Type :=
  option (list number) -> jsval -> jsval -> completion (list (list number)).

(** What a module assigns to [module.exports]: a function, or an object with
    named properties. *)
Inductive exports : Type :=
| ExportsFunction (f : finder)
| ExportsObject (properties : table finder).

(** [const { name } = require(module)]: the property [name] of what the
    module exports.  A function object has no property of that name, so the
    binding is [undefined] ([None]). *)
Definition destructure (name : string) (m : exports) : option finder :=
  match m with
  | ExportsFunction _ => None
  | ExportsObject properties => get properties name
  end.

(** A call: calling [undefined] throws. *)
Definition call (f : option finder) (possibleRolls : option (list number))
  (target stat : jsval) : completion (list (list number)) :=
  match f with
  | Some g => g possibleRolls target stat
  | None => Throw TypeError_not_a_function
  end.

Definition set_weight (sub : substat) (w : jsval) : substat :=
  {| stat := stat sub; amount := amount sub;
     weight := Some w; numRolls := numRolls sub |}.

Definition set_numRolls (sub : substat) (r : list (list number)) : substat :=
  {| stat := stat sub; amount := amount sub;
     weight := weight sub; numRolls := Some r |}.

Definition set_substats (a : artifact) (subs : list substat) : artifact :=
  {| name := name a; slot := slot a; level := level a;
     mainStat := mainStat a; mainStatAmount := mainStatAmount a;
     substats := subs |}.

Section RatePower.

(** The three tables of [data/artifact-data], which this module and
    [find-combinations.js] import. *)
Variable DECIMAL_STATS : list string.
Variable POSSIBLE_SUBSTAT_ROLLS : table (list number).
Variable SUBSTAT_WEIGHTING : table number.

(** [module.exports = findCombos;] in find-combinations.js. *)
Definition find_combinations_js : exports :=
  ExportsFunction (findCombos DECIMAL_STATS).

(** [const { findCombos } = require("../find-combinations.js");] *)
Definition required_findCombos : option finder :=
  destructure "findCombos" find_combinations_js.

(** [SUBSTAT_WEIGHTING[stat]]: the own property, or else the value inherited
    from [Object.prototype], or else [undefined]. *)
Definition weighting (stat : string) : jsval :=
  match get SUBSTAT_WEIGHTING stat with
  | Some w => VNum w
  | None => if inherited stat then VInherited stat else VUndef
  end.

Section WithBinding.

(** The value the name [findCombos] is bound to inside the module. *)
Variable findCombos_binding : option finder.

(** The callback of [artifact.substats.map]: it assigns [sub.weight], then
    [sub.numRolls], and returns [undefined].  The substat object is shared
    with the artifact, so the function returns the object as the call
    leaves it, also when the call throws.  The first argument of the call,
    [POSSIBLE_SUBSTAT_ROLLS[sub.stat]], is the own property when the table
    has one and [None] otherwise: what the table then gives, [undefined] or
    an inherited function or object, is nothing a loop can iterate. *)
Definition rate_substat (sub : substat) : substat * completion jsval :=
  let sub1 := set_weight sub (weighting (stat sub)) in
  match call findCombos_binding
             (get POSSIBLE_SUBSTAT_ROLLS (stat sub1)) (amount sub1) VUndef
  with
  | Normal r => (set_numRolls sub1 r, Normal VUndef)
  | Throw e => (sub1, Throw e)
  end.

(** [subs.map(callback)]: the substats as the calls leave them, and the
    array of the callback's results unless a call threw. *)
Fixpoint map_substats (subs : list substat)
  : list substat * completion (list jsval) :=
  match subs with
  | [] => ([], Normal [])
  | sub :: rest =>
      match rate_substat sub with
      | (sub', Throw e) => (sub' :: rest, Throw e)
      | (sub', Normal v) =>
          match map_substats rest with
          | (rest', Normal vs) => (sub' :: rest', Normal (v :: vs))
          | (rest', Throw e) => (sub' :: rest', Throw e)
          end
      end
  end.

(** [ratePower(artifact)]: the artifact as the call leaves it, and either
    the array that [console.log] prints or the error thrown.  The function
    itself returns [undefined]. *)
Definition ratePower_with (a : artifact)
  : artifact * completion (list jsval) :=
  let (subs, logged) := map_substats (substats a) in
  (set_substats a subs, logged).

End WithBinding.

(** [ratePower] as the module defines it. *)
Definition ratePower (a : artifact) : artifact * completion (list jsval) :=
  ratePower_with required_findCombos a.

End RatePower.

(** What [ratePower] leaves of a substat it has processed: the stat and the
    amount it had, the weight [SUBSTAT_WEIGHTING[stat]], and the combinations
    the call to the finder returned. *)
Definition rated (ROLLS : table (list number)) (WEIGHTING : table number)
  (f : option finder) (before after : substat) : Prop :=
  stat after = stat before
  /\ amount after = amount before
  /\ weight after = Some (weighting WEIGHTING (stat before))
  /\ exists r, call f (get ROLLS (stat before)) (amount before) VUndef
               = Normal r
               /\ numRolls after = Some r.

(** What [ratePower] can have done to a substat object: nothing; or the
    assignment of [weight] only, the call to the finder having thrown; or
    both assignments, [numRolls] holding what the call returned. *)
Definition written (ROLLS : table (list number)) (WEIGHTING : table number)
  (f : option finder) (before after : substat) : Prop :=
  after = before
  \/ (after = set_weight before (weighting WEIGHTING (stat before))
      /\ exists e, call f (get ROLLS (stat before)) (amount before) VUndef
                   = Throw e)
  \/ (exists r, call f (get ROLLS (stat before)) (amount before) VUndef
                = Normal r
                /\ after = set_numRolls
                             (set_weight before
                                (weighting WEIGHTING (stat before))) r).

(* ===================================================================== *)
(** ** The search tree *)
(* ===================================================================== *)

(** A node at which [subsetSum] does not halt: its rounded sum is not at or
    above the target and it has at most six partials. *)
Definition continues (target : number) (oneDecimal : bool)
  (partials : list number) : bool :=
  negb (num_ge (rounded_sum oneDecimal partials) target)
  && (List.length partials <=? 6).

(** A node that is pushed to [found]. *)
Definition hits (target : number) (oneDecimal : bool)
  (partials : list number) : bool :=
  strict_eq (rounded_sum oneDecimal partials) target.

(** [calls rolls target oneDecimal child parent]: the call on [parent] makes
    the recursive call on [child]. *)
Definition calls (rolls : list number) (target : number) (oneDecimal : bool)
  (child parent : list number) : Prop :=
  continues target oneDecimal parent = true
  /\ exists roll, In roll rolls /\ child = parent ++ [roll].

(** The nodes the call on [p] gets to. *)
Inductive reaches (rolls : list number) (target : number) (oneDecimal : bool)
  : list number -> list number -> Prop :=
| reaches_here : forall p, reaches rolls target oneDecimal p p
| reaches_deeper : forall p roll q,
    continues target oneDecimal p = true ->
    In roll rolls ->
    reaches rolls target oneDecimal (p ++ [roll]) q ->
    reaches rolls target oneDecimal p q.

(** The recursive calls the call on [partials] makes. *)
Definition children (rolls : list number) (target : number) (oneDecimal : bool)
  (partials : list number) : list (list number) :=
  if continues target oneDecimal partials
  then map (fun roll => partials ++ [roll]) rolls
  else [].

(** A search path: a sequence of rolls the search gets to from the empty
    sequence and records.  None of its proper prefixes halts the branch, and
    its own rounded sum is the target. *)
Definition search_path (rolls : list number) (target : number)
  (oneDecimal : bool) (p : list number) : Prop :=
  Forall (fun roll => In roll rolls) p
  /\ (forall n, n < List.length p ->
                continues target oneDecimal (firstn n p) = true)
  /\ hits target oneDecimal p = true.

(** A sequence within the bounds of the search: rolls of the candidate list,
    at most seven of them (a branch halts once it has more than six). *)
Definition within_bounds (rolls : list number) (p : list number) : Prop :=
  Forall (fun roll => In roll rolls) p /\ List.length p <= 7.

(** All the sequences of at most [n] rolls. *)
Fixpoint sequences (rolls : list number) (n : nat) : list (list number) :=
  match n with
  | 0 => [[]]
  | S k => [] :: flat_map (fun roll => map (cons roll) (sequences rolls k)) rolls
  end.

(** The number of sequences of at most [k] elements over [n] candidates:
    [1 + n + ... + n^k]. *)
Fixpoint sequences_count (n k : nat) : nat :=
  match k with
  | 0 => 1
  | S k' => 1 + n * sequences_count n k'
  end.

(* ===================================================================== *)
(** ** Example data *)
(* ===================================================================== *)

(** Tables for the examples: the data module is configuration, so any tables
    will do; these follow the stats of [TEST_ARTIFACT]. *)
Definition example_DECIMAL_STATS : list string :=
  ["critRate"; "critDmg"; "Def%"]%string.

Definition example_ROLLS : table (list number) :=
  [ ("critRate", map lit ["2.7"; "3.1"; "3.5"; "3.9"]);
    ("critDmg", map lit ["5.4"; "6.2"; "7.0"; "7.8"]);
    ("Def%", map lit ["5.1"; "5.8"; "6.6"; "7.3"]);
    ("Def", map lit ["16"; "19"; "21"; "23"]) ]%string.

Definition example_WEIGHTING : table number :=
  [ ("critRate", lit "1"); ("critDmg", lit "1");
    ("Def%", lit "0.5"); ("Def", lit "0.25") ]%string.

(* ===================================================================== *)
(** ** Comparisons against NaN *)
(* ===================================================================== *)

Lemma strict_eq_NaN_r (a : number) : strict_eq a NaN = false.
Proof. destruct a; reflexivity. Qed.

Lemma num_ge_NaN_r (a : number) : num_ge a NaN = false.
Proof. destruct a; reflexivity. Qed.

(* ===================================================================== *)
(** ** [Math.round] of a rounded number *)
(* ===================================================================== *)

Local Open Scope Z_scope.

Lemma digits2_pos_iter_xO k m :
  Zpos (digits2_pos (Pos.iter xO m k)) = Zpos (digits2_pos m) + Zpos k.
Proof.
  induction k as [|k IH] using Pos.peano_ind.
  - simpl. lia.
  - rewrite Pos.iter_succ. simpl. lia.
Qed.

Lemma iter_xO_value k m : Zpos (Pos.iter xO m k) = Zpos m * 2 ^ Zpos k.
Proof.
  induction k as [|k IH] using Pos.peano_ind.
  - simpl. lia.
  - rewrite Pos.iter_succ, Pos2Z.inj_succ, Z.pow_succ_r by lia.
    rewrite Pos2Z.inj_xO, IH. lia.
Qed.

Lemma shr_exponent mrs e n : e <= snd (shr mrs e n).
Proof. destruct n; simpl; lia. Qed.

Lemma shr_fexp_exponent m e l : e <= snd (shr_fexp prec emax m e l).
Proof. apply shr_exponent. Qed.

(** Rounding a mantissa whose exponent is not negative gives a number
    whose exponent is not negative. *)
Lemma binary_round_aux_exponent s m e l :
  0 <= e ->
  match binary_round_aux prec emax s m e l with
  | S754_finite _ _ e' => 0 <= e'
  | _ => True
  end.
Proof.
  intros He. unfold binary_round_aux.
  pose proof (shr_fexp_exponent m e l) as H1.
  destruct (shr_fexp prec emax m e l) as [mrs' e']. simpl in H1.
  pose proof (shr_fexp_exponent
                (round_nearest_even (shr_m mrs') (loc_of_shr_record mrs'))
                e' loc_Exact) as H2.
  destruct (shr_fexp prec emax _ e' loc_Exact) as [mrs'' e'']. simpl in H2.
  destruct (shr_m mrs''); try exact I.
  destruct (e'' <=? emax - prec); [lia|exact I].
Qed.

Lemma binary_round_cases s m :
  match binary_round prec emax s m 0 with
  | S754_finite s' m' e' =>
      0 <= e' \/ (s' = s /\ exists k, e' = Zneg k /\ m' = Pos.iter xO m k)
  | _ => True
  end.
Proof.
  unfold binary_round, shl_align.
  destruct (fexp prec emax (Zpos (digits2_pos m) + 0) - 0) as [|p|k] eqn:E.
  - pose proof (binary_round_aux_exponent s (Zpos m) 0 loc_Exact (Z.le_refl 0)) as H.
    destruct (binary_round_aux prec emax s (Zpos m) 0 loc_Exact); auto.
  - pose proof (binary_round_aux_exponent s (Zpos m) 0 loc_Exact (Z.le_refl 0)) as H.
    destruct (binary_round_aux prec emax s (Zpos m) 0 loc_Exact); auto.
  - (* the mantissa is shifted left and nothing is rounded *)
    assert (Hfe : fexp prec emax (Zpos (digits2_pos m) + 0) = Zneg k) by lia.
    rewrite Hfe. unfold binary_round_aux, shr_fexp.
    assert (Hd : fexp prec emax (Zdigits2 (Z.pos (PosDef.Pos.iter xO m k)) + Z.neg k)
                 - Z.neg k = 0).
    { simpl Zdigits2.
      change (PosDef.Pos.iter xO m k) with (Pos.iter xO m k).
      rewrite digits2_pos_iter_xO.
      replace (Z.pos (digits2_pos m) + Z.pos k + Z.neg k)
        with (Z.pos (digits2_pos m) + 0) by lia.
      rewrite Hfe. lia. }
    rewrite Hd. cbn [shr shr_record_of_loc shr_m loc_of_shr_record round_nearest_even].
    rewrite Hd. cbn [shr shr_record_of_loc shr_m].
    assert (Hk : (Z.neg k <=? emax - prec) = true)
      by (apply Z.leb_le; unfold emax, prec; lia).
    rewrite Hk. right. split; [reflexivity|]. exists k. auto.
Qed.

Lemma num_of_Z_cases n :
  match num_of_Z n with
  | S754_finite s' m' e' =>
      0 <= e'
      \/ exists k, e' = Zneg k /\ cond_Zopp s' (Zpos m') = n * 2 ^ Zpos k
  | _ => True
  end.
Proof.
  unfold num_of_Z, binary_normalize. destruct n as [|p|p]; [exact I| |].
  - pose proof (binary_round_cases false p) as H.
    destruct (binary_round prec emax false p 0); auto.
    destruct H as [H|(-> & k & -> & ->)]; [left; exact H|right].
    exists k. split; [reflexivity|]. simpl cond_Zopp. apply iter_xO_value.
  - pose proof (binary_round_cases true p) as H.
    destruct (binary_round prec emax true p 0); auto.
    destruct H as [H|(-> & k & -> & ->)]; [left; exact H|right].
    exists k. split; [reflexivity|]. simpl cond_Zopp.
    rewrite <- !Pos2Z.opp_pos, iter_xO_value. lia.
Qed.

(** [Math.round] of a whole number is that number. *)
Lemma Math_round_num_of_Z n : n <> 0 -> Math_round (num_of_Z n) = num_of_Z n.
Proof.
  intros Hn. pose proof (num_of_Z_cases n) as H.
  destruct (num_of_Z n) as [ | | |s m e] eqn:E; try reflexivity.
  unfold Math_round.
  destruct H as [H|(k & -> & Hv)].
  - destruct (Z.leb_spec 0 e); [reflexivity|lia].
  - cbn [Z.leb Z.compare]. 
    replace (Z.shiftr (2 * cond_Zopp s (Z.pos m) + 2 ^ (- Z.neg k)) (1 - Z.neg k)) with n.
    + destruct (Z.eqb_spec n 0); [contradiction|]. exact E.
    + rewrite Hv, Z.shiftr_div_pow2 by lia.
      change (- Z.neg k) with (Z.pos k).
      replace (1 - Z.neg k) with (Z.succ (Z.pos k)) by lia.
      rewrite Z.pow_succ_r by lia.
      replace (2 * (n * 2 ^ Z.pos k) + 2 ^ Z.pos k)
        with (2 ^ Z.pos k + n * (2 * 2 ^ Z.pos k)) by lia.
      rewrite Z.div_add by (pose proof (Z.pow_pos_nonneg 2 (Z.pos k)); lia).
      rewrite Z.div_small; [lia|].
      pose proof (Z.pow_pos_nonneg 2 (Z.pos k)). lia.
Qed.

Lemma Math_round_idempotent x : Math_round (Math_round x) = Math_round x.
Proof.
  destruct x as [s|s| |s m e]; try reflexivity.
  assert (H : Math_round (S754_finite s m e) = S754_finite s m e
              \/ Math_round (S754_finite s m e) = S754_zero s
              \/ exists n, n <> 0
                   /\ Math_round (S754_finite s m e) = num_of_Z n).
  { unfold Math_round. destruct (0 <=? e); [left; reflexivity|right].
    match goal with |- context [Z.eqb ?n 0] =>
      destruct (Z.eqb_spec n 0) as [|Hn];
        [left; reflexivity|right; exists n; auto] end. }
  destruct H as [H|[H|(n & Hn & H)]].
  - rewrite H. exact H.
  - rewrite H. reflexivity.
  - rewrite H. apply Math_round_num_of_Z. exact Hn.
Qed.

Lemma strict_eq_cases a b :
  strict_eq a b = true ->
  a = b \/ exists s1 s2, a = S754_zero s1 /\ b = S754_zero s2.
Proof.
  unfold strict_eq, SFeqb.
  destruct a as [s1|s1| |s1 m1 e1], b as [s2|s2| |s2 m2 e2]; simpl;
    intros H;
    try (right; exists s1, s2; split; reflexivity);
    try discriminate H;
    try (destruct s1; discriminate H);
    try (destruct s2; discriminate H).
  - destruct s1, s2; try discriminate H; auto.
  - left.
    destruct s1, s2; try discriminate H;
      destruct (Z.compare_spec e1 e2); try discriminate H; subst;
      destruct (Pos.compare_cont Eq m1 m2) eqn:E; try discriminate H;
      apply Pos.compare_eq in E; subst; reflexivity.
Qed.

Lemma strict_eq_Math_round s t :
  strict_eq (Math_round s) t = true ->
  strict_eq (Math_round s) (Math_round t) = true.
Proof.
  intros H. destruct (strict_eq_cases _ _ H) as [E|(s1 & s2 & E1 & E2)].
  - rewrite <- E, Math_round_idempotent. rewrite <- E in H. exact H.
  - rewrite E1, E2. reflexivity.
Qed.

(** *** Numbers that are not NaN *)

Lemma shr_1_nonneg mrs : 0 <= shr_m mrs -> 0 <= shr_m (shr_1 mrs).
Proof.
  destruct mrs as [m r s]. simpl.
  destruct m as [|[p|p|]|[p|p|]]; simpl; lia.
Qed.

Lemma iter_shr_1_nonneg p :
  forall mrs, 0 <= shr_m mrs -> 0 <= shr_m (iter_pos shr_1 p mrs).
Proof.
  induction p as [p IH|p IH|]; intros mrs H; simpl.
  - apply IH, IH, shr_1_nonneg, H.
  - apply IH, IH, H.
  - apply shr_1_nonneg, H.
Qed.

Lemma shr_fexp_nonneg m e l :
  0 <= m -> 0 <= shr_m (fst (shr_fexp prec emax m e l)).
Proof.
  intros H. unfold shr_fexp, shr.
  assert (H0 : 0 <= shr_m (shr_record_of_loc m l))
    by (destruct l as [|[| |]]; exact H).
  destruct (fexp prec emax (Zdigits2 m + e) - e); simpl;
    [exact H0|apply iter_shr_1_nonneg, H0|exact H0].
Qed.

Lemma round_nearest_even_nonneg m l : 0 <= m -> 0 <= round_nearest_even m l.
Proof.
  intros H. destruct l as [|[| |]]; simpl; try lia.
  destruct (Z.even m); lia.
Qed.

(** Rounding a mantissa that is not negative never gives NaN. *)
Lemma binary_round_aux_number s m e l :
  0 <= m -> is_nan (binary_round_aux prec emax s m e l) = false.
Proof.
  intros H. unfold binary_round_aux.
  pose proof (shr_fexp_nonneg m e l H) as H1.
  destruct (shr_fexp prec emax m e l) as [mrs' e']. simpl in H1.
  pose proof (shr_fexp_nonneg
                (round_nearest_even (shr_m mrs') (loc_of_shr_record mrs'))
                e' loc_Exact (round_nearest_even_nonneg _ _ H1)) as H2.
  destruct (shr_fexp prec emax _ e' loc_Exact) as [mrs'' e'']. simpl in H2.
  destruct (shr_m mrs''); [reflexivity| |lia].
  destruct (e'' <=? emax - prec); reflexivity.
Qed.

Lemma num_of_Z_number n : is_nan (num_of_Z n) = false.
Proof.
  unfold num_of_Z, binary_normalize, binary_round.
  destruct n as [|p|p]; [reflexivity| |];
    destruct (shl_align _ _ _) as [mz ez];
    apply binary_round_aux_number; lia.
Qed.

Lemma Math_round_nan x : is_nan (Math_round x) = is_nan x.
Proof.
  destruct x as [s|s| |s m e]; try reflexivity.
  unfold Math_round. destruct (0 <=? e); [reflexivity|].
  match goal with |- context [Z.eqb ?n 0] => destruct (Z.eqb n 0) end;
    [reflexivity|apply num_of_Z_number].
Qed.

Lemma num_mul_ten_nan x : is_nan (num_mul x (num_of_Z 10)) = is_nan x.
Proof.
  change (num_of_Z 10) with (S754_finite false 5629499534213120 (-49)).
  destruct x as [s|s| |s m e]; try reflexivity.
  unfold num_mul, SFmul. apply binary_round_aux_number. lia.
Qed.

Lemma num_div_ten_nan x : is_nan (num_div x (num_of_Z 10)) = is_nan x.
Proof.
  change (num_of_Z 10) with (S754_finite false 5629499534213120 (-49)).
  destruct x as [s|s| |s m e]; try reflexivity.
  unfold num_div, SFdiv, SFdiv_core_binary.
  match goal with |- context [Z.div_eucl ?a ?b] =>
    pose proof (Z.div_eucl_eq a b ltac:(lia)) as Heq;
    pose proof (Z.mod_pos_bound a b ltac:(lia)) as Hmod;
    assert (Ha : 0 <= a);
    [|unfold Z.modulo in Hmod; destruct (Z.div_eucl a b) as [q r]]
  end.
  - match goal with |- 0 <= match ?s with _ => _ end =>
      destruct s eqn:Es; try lia end.
    rewrite Z.shiftl_mul_pow2 by lia. 
    pose proof (Z.pow_pos_nonneg 2 (Z.pos p)). nia.
  - apply binary_round_aux_number. nia.
Qed.

Lemma round1_nan x : is_nan (round1 x) = is_nan x.
Proof.
  unfold round1. rewrite num_div_ten_nan, Math_round_nan, num_mul_ten_nan.
  reflexivity.
Qed.

Lemma rounded_sum_nan oneDecimal p :
  is_nan (rounded_sum oneDecimal p) = is_nan (sum_of p).
Proof.
  unfold rounded_sum. destruct oneDecimal;
    [apply round1_nan|apply Math_round_nan].
Qed.

Local Close Scope Z_scope.

Lemma fold_add_nan l : fold_left num_add l NaN = NaN.
Proof. induction l as [|x l IH]; simpl; [reflexivity|exact IH]. Qed.

(** A sum some prefix of which is NaN is NaN. *)
Lemma sum_of_prefix_nan n p :
  is_nan (sum_of (firstn n p)) = true -> is_nan (sum_of p) = true.
Proof.
  intros H. rewrite <- (firstn_skipn n p). unfold sum_of in *.
  rewrite fold_left_app.
  destruct (fold_left num_add (firstn n p) pos_zero); try discriminate H.
  change S754_nan with NaN. rewrite fold_add_nan. reflexivity.
Qed.

Lemma strict_eq_number a b :
  strict_eq a b = true -> is_nan a = false /\ is_nan b = false.
Proof.
  destruct a, b; simpl; try discriminate; auto.
Qed.

(** Of two numbers, the first is below the second unless it is at or above
    it. *)
Lemma num_lt_of_not_ge a b :
  is_nan a = false -> is_nan b = false ->
  num_ge a b = false -> num_lt a b = true.
Proof.
  unfold num_ge, num_lt, SFleb, SFltb.
  destruct a as [s1|s1| |s1 m1 e1], b as [s2|s2| |s2 m2 e2]; simpl;
    try discriminate; intros _ _;
    try (destruct s1; try discriminate; reflexivity);
    try (destruct s2; try discriminate; reflexivity);
    try (destruct s1, s2; try discriminate; reflexivity).
  change (Pos.compare_cont Eq m1 m2) with (Pos.compare m1 m2).
  change (Pos.compare_cont Eq m2 m1) with (Pos.compare m2 m1).
  destruct s1, s2; try discriminate; try reflexivity;
    destruct (Z.compare_spec e1 e2), (Z.compare_spec e2 e1); try lia;
    try discriminate; try reflexivity;
    destruct (Pos.compare_spec m1 m2), (Pos.compare_spec m2 m1); try lia;
    try discriminate; try reflexivity.
Qed.

(** On a sequence whose rounded sum is the target, a prefix whose rounded
    sum is not at or above the target has a rounded sum below it. *)
Lemma prefix_below_target target oneDecimal p n :
  hits target oneDecimal p = true ->
  num_ge (rounded_sum oneDecimal (firstn n p)) target = false ->
  num_lt (rounded_sum oneDecimal (firstn n p)) target = true.
Proof.
  intros Hh Hge. apply strict_eq_number in Hh as (Hsum & Ht).
  apply num_lt_of_not_ge; [|exact Ht|exact Hge].
  rewrite rounded_sum_nan in *.
  destruct (is_nan (sum_of (firstn n p))) eqn:E; [|reflexivity].
  apply sum_of_prefix_nan in E. congruence.
Qed.


(* ===================================================================== *)
(** ** The recursion of [subsetSum] *)
(* ===================================================================== *)

(** The body of [subsetSum], statement by statement. *)
Lemma subsetSum_body possibleRolls target found oneDecimal partials :
  subsetSum possibleRolls target found oneDecimal partials =
  let found1 := record target oneDecimal found partials in
  if num_ge (rounded_sum oneDecimal partials) target then Normal found1
  else if 6 <? List.length partials then Normal found1
  else match possibleRolls with
       | None => Throw TypeError_not_iterable
       | Some rolls =>
           for_of rolls
             (fun roll found' =>
                subsetSum possibleRolls target found' oneDecimal
                          (partials ++ [roll]))
             found1
       end.
Proof.
  simp subsetSum. cbv zeta.
  destruct (num_ge (rounded_sum oneDecimal partials) target); simpl;
    [reflexivity|].
  destruct (le_lt_dec (List.length partials) 6) as [Hle|Hlt]; simpl.
  - destruct (Nat.ltb_spec 6 (List.length partials)); [lia|].
    destruct possibleRolls; reflexivity.
  - destruct (Nat.ltb_spec 6 (List.length partials)); [reflexivity|lia].
Qed.

Lemma continues_false_halts target oneDecimal partials :
  continues target oneDecimal partials = false <->
  num_ge (rounded_sum oneDecimal partials) target = true
  \/ 6 < List.length partials.
Proof.
  unfold continues.
  destruct (num_ge (rounded_sum oneDecimal partials) target); simpl.
  - tauto.
  - destruct (Nat.leb_spec (List.length partials) 6); split;
      intros; try lia; try discriminate; intuition (discriminate || lia).
Qed.

(** A loop whose iterations each append to the state appends the
    concatenation. *)
Lemma for_of_appends {A B : Type} (xs : list A)
  (body : A -> list B -> completion (list B)) (Q : A -> B -> Prop) :
  (forall x s, In x xs ->
     exists new, body x s = Normal (s ++ new)
                 /\ forall b, In b new <-> Q x b) ->
  forall s, exists new,
    for_of xs body s = Normal (s ++ new)
    /\ forall b, In b new <-> exists x, In x xs /\ Q x b.
Proof.
  induction xs as [|x xs IH]; intros Hbody s.
  - exists []. rewrite app_nil_r. split; [reflexivity|].
    intros b; split; [intros []|intros (x & [] & _)].
  - destruct (Hbody x s (or_introl eq_refl)) as (new1 & E1 & H1).
    destruct (IH (fun y s' Hy => Hbody y s' (or_intror Hy)) (s ++ new1))
      as (new2 & E2 & H2).
    exists (new1 ++ new2). simpl. rewrite E1, E2, app_assoc.
    split; [reflexivity|].
    intros b. rewrite in_app_iff, H1, H2. split.
    + intros [Hq|(y & Hy & Hq)]; [exists x|exists y]; auto.
    + intros (y & [<-|Hy] & Hq); [left|right; exists y]; auto.
Qed.

Lemma reaches_halted rolls target oneDecimal p q :
  continues target oneDecimal p = false ->
  reaches rolls target oneDecimal p q -> q = p.
Proof.
  intros Hc Hr. destruct Hr as [|p roll q Hc' _ _]; [reflexivity|congruence].
Qed.

Lemma reaches_cases rolls target oneDecimal p q :
  reaches rolls target oneDecimal p q <->
  q = p \/ (continues target oneDecimal p = true
            /\ exists roll, In roll rolls
                 /\ reaches rolls target oneDecimal (p ++ [roll]) q).
Proof.
  split.
  - intros Hr. destruct Hr as [|p roll q Hc Hin Hr]; [left; reflexivity|].
    right. split; [assumption|]. exists roll; auto.
  - intros [->|(Hc & roll & Hin & Hr)].
    + constructor.
    + econstructor; eassumption.
Qed.

(** A node that halts returns after recording itself, whatever the rolls. *)
Lemma subsetSum_halts possibleRolls target found oneDecimal partials :
  continues target oneDecimal partials = false ->
  subsetSum possibleRolls target found oneDecimal partials
  = Normal (record target oneDecimal found partials).
Proof.
  intros Hc. apply continues_false_halts in Hc.
  rewrite subsetSum_body. cbv zeta.
  destruct (num_ge (rounded_sum oneDecimal partials) target); [reflexivity|].
  destruct (Nat.ltb_spec 6 (List.length partials)); [reflexivity|].
  destruct Hc; [discriminate|lia].
Qed.

(** A node that continues runs the loop over the rolls. *)
Lemma subsetSum_continues rolls target found oneDecimal partials :
  continues target oneDecimal partials = true ->
  subsetSum (Some rolls) target found oneDecimal partials
  = for_of rolls
      (fun roll found' =>
         subsetSum (Some rolls) target found' oneDecimal (partials ++ [roll]))
      (record target oneDecimal found partials).
Proof.
  intros Hc. unfold continues in Hc.
  apply andb_true_iff in Hc as (Hge & Hlen).
  apply negb_true_iff in Hge. apply Nat.leb_le in Hlen.
  rewrite subsetSum_body. cbv zeta. rewrite Hge.
  destruct (Nat.ltb_spec 6 (List.length partials)); [lia|reflexivity].
Qed.

Lemma record_appends target oneDecimal found partials :
  record target oneDecimal found partials
  = found ++ (if hits target oneDecimal partials then [partials] else []).
Proof.
  unfold record, hits.
  destruct (strict_eq (rounded_sum oneDecimal partials) target);
    [reflexivity|symmetry; apply app_nil_r].
Qed.

(** What a call of [subsetSum] on an array of rolls adds to [found]: the
    nodes it gets to whose rounded sum is the target. *)
Lemma subsetSum_appends rolls target oneDecimal :
  forall n partials found, 7 - List.length partials <= n ->
  exists new,
    subsetSum (Some rolls) target found oneDecimal partials
    = Normal (found ++ new)
    /\ forall p, In p new <->
                 (reaches rolls target oneDecimal partials p
                  /\ hits target oneDecimal p = true).
Proof.
  assert (Hhalted : forall partials found,
             continues target oneDecimal partials = false ->
             exists new,
               subsetSum (Some rolls) target found oneDecimal partials
               = Normal (found ++ new)
               /\ forall p, In p new <->
                            (reaches rolls target oneDecimal partials p
                             /\ hits target oneDecimal p = true)).
  { intros partials found Hc.
    exists (if hits target oneDecimal partials then [partials] else []).
    rewrite (subsetSum_halts _ _ _ _ _ Hc), record_appends.
    split; [reflexivity|]. intros p. split.
    - destruct (hits target oneDecimal partials) eqn:Hh; [|intros []].
      intros [<-|[]]. split; [constructor|assumption].
    - intros (Hr & Hp). apply (reaches_halted _ _ _ _ _ Hc) in Hr. subst p.
      rewrite Hp. left; reflexivity. }
  induction n as [|n IH]; intros partials found Hn.
  - apply Hhalted. apply continues_false_halts. right. lia.
  - destruct (continues target oneDecimal partials) eqn:Hc;
      [|apply Hhalted; assumption].
    rewrite (subsetSum_continues _ _ _ _ _ Hc), record_appends.
    destruct (for_of_appends rolls
                (fun roll found' =>
                   subsetSum (Some rolls) target found' oneDecimal
                             (partials ++ [roll]))
                (fun roll p =>
                   reaches rolls target oneDecimal (partials ++ [roll]) p
                   /\ hits target oneDecimal p = true))
      with (s := found ++ (if hits target oneDecimal partials
                           then [partials] else []))
      as (new & E & Hnew).
    { intros roll s _. apply IH. rewrite length_app.
      change (List.length [roll]) with 1.
      unfold continues in Hc. apply andb_true_iff in Hc as (_ & Hlen).
      apply Nat.leb_le in Hlen. lia. }
    exists ((if hits target oneDecimal partials then [partials] else [])
            ++ new).
    rewrite E, app_assoc. split; [reflexivity|].
    intros p. rewrite in_app_iff, reaches_cases, Hnew. split.
    + intros [Hp|(roll & Hin & Hr & Hp)].
      * destruct (hits target oneDecimal partials) eqn:Hh; [|destruct Hp].
        destruct Hp as [<-|[]]. split; [left; reflexivity|assumption].
      * split; [right; split; [assumption|exists roll; auto]|assumption].
    + intros ([->|(_ & roll & Hin & Hr)] & Hp).
      * left. rewrite Hp. left; reflexivity.
      * right. exists roll; auto.
Qed.

Lemma reaches_iff rolls target oneDecimal a p :
  reaches rolls target oneDecimal a p <->
  exists ext, p = a ++ ext
              /\ Forall (fun roll => In roll rolls) ext
              /\ forall k, k < List.length ext ->
                           continues target oneDecimal (a ++ firstn k ext)
                           = true.
Proof.
  split.
  - induction 1 as [p|p roll q Hc Hin _ (ext & -> & Hall & Hk)].
    + exists []. rewrite app_nil_r. repeat split; [constructor|].
      simpl; intros; lia.
    + exists (roll :: ext). rewrite <- app_assoc. repeat split.
      * constructor; assumption.
      * intros [|k] Hlt; simpl in *.
        -- rewrite app_nil_r. assumption.
        -- specialize (Hk k ltac:(lia)). rewrite <- app_assoc in Hk.
           exact Hk.
  - intros (ext & -> & Hall & Hk). revert a Hk.
    induction Hall as [|roll ext Hin Hall IH]; intros a Hk.
    + rewrite app_nil_r. constructor.
    + apply reaches_deeper with (roll := roll).
      * specialize (Hk 0 ltac:(simpl; lia)). simpl in Hk.
        rewrite app_nil_r in Hk. exact Hk.
      * exact Hin.
      * replace (a ++ roll :: ext) with ((a ++ [roll]) ++ ext)
          by (rewrite <- app_assoc; reflexivity).
        apply IH. intros k Hlt. specialize (Hk (S k) ltac:(simpl; lia)).
        simpl in Hk. rewrite <- app_assoc. exact Hk.
Qed.

Lemma search_path_iff rolls target oneDecimal p :
  search_path rolls target oneDecimal p <->
  (reaches rolls target oneDecimal [] p /\ hits target oneDecimal p = true).
Proof.
  unfold search_path. rewrite reaches_iff. simpl. split.
  - intros (Hall & Hk & Hh). split; [|assumption]. exists p. auto.
  - intros ((ext & -> & Hall & Hk) & Hh). auto.
Qed.

(** The search from the empty sequence records the search paths, and only
    them. *)
Lemma subsetSum_records rolls target oneDecimal :
  exists raw,
    subsetSum (Some rolls) target [] oneDecimal [] = Normal raw
    /\ forall p, In p raw <-> search_path rolls target oneDecimal p.
Proof.
  destruct (subsetSum_appends rolls target oneDecimal 7 [] [] ltac:(simpl; lia))
    as (new & E & Hnew).
  exists new. split; [exact E|].
  intros p. rewrite search_path_iff. apply Hnew.
Qed.

Lemma search_path_within_bounds rolls target oneDecimal p :
  search_path rolls target oneDecimal p -> within_bounds rolls p.
Proof.
  intros (Hall & Hk & _). split; [assumption|].
  destruct (Nat.le_gt_cases (List.length p) 7) as [|Hgt]; [assumption|].
  specialize (Hk 7 Hgt). unfold continues in Hk.
  apply andb_true_iff in Hk as (_ & Hlen). apply Nat.leb_le in Hlen.
  rewrite length_firstn in Hlen. lia.
Qed.

(* ===================================================================== *)
(** ** Objects and the removal of duplicates *)
(* ===================================================================== *)

Lemma key_eqb_eq k1 k2 : key_eqb k1 k2 = true <-> k1 = k2.
Proof.
  unfold key_eqb. destruct (key_eq_dec k1 k2); split; congruence.
Qed.

Lemma obj_set_keys {V : Type} (k : key) (v : V) (o : object V) :
  map fst (obj_set k v o)
  = if in_dec key_eq_dec k (map fst o) then map fst o else map fst o ++ [k].
Proof.
  induction o as [|[k' v'] o IH]; simpl; [reflexivity|].
  destruct (key_eqb k k') eqn:E.
  - apply key_eqb_eq in E. subst k'. simpl.
    destruct (key_eq_dec k k); [|congruence].
    destruct (in_dec key_eq_dec k (map fst o)); reflexivity.
  - assert (k <> k') by (intros ->; rewrite (proj2 (key_eqb_eq k' k') eq_refl) in E; discriminate).
    simpl. rewrite IH.
    destruct (key_eq_dec k' k); [congruence|].
    destruct (in_dec key_eq_dec k (map fst o)); reflexivity.
Qed.

Lemma obj_set_In {V : Type} (k : key) (v : V) (o : object V) k' v' :
  In (k', v') (obj_set k v o) ->
  (k' = k /\ v' = v) \/ In (k', v') o.
Proof.
  induction o as [|[k0 v0] o IH]; simpl.
  - intros [E|[]]. inversion E. auto.
  - destruct (key_eqb k k0).
    + intros [E|Hin]; [inversion E; auto|auto].
    + intros [E|Hin]; [auto|]. destruct (IH Hin); auto.
Qed.

Lemma obj_set_NoDup {V : Type} (k : key) (v : V) (o : object V) :
  NoDup (map fst o) -> NoDup (map fst (obj_set k v o)).
Proof.
  intros Hnd. rewrite obj_set_keys.
  destruct (in_dec key_eq_dec k (map fst o)) as [|Hnot]; [assumption|].
  apply NoDup_app; [assumption|repeat constructor; intros []|].
  intros x Hx [<-|[]]. contradiction.
Qed.

Lemma index_combos_indexes :
  forall rest seen o,
    indexes seen o ->
    indexes (seen ++ rest) (index_combos rest (List.length seen) o).
Proof.
  induction rest as [|combo rest IH]; intros seen o Hinv; simpl.
  - rewrite app_nil_r. assumption.
  - replace (seen ++ combo :: rest) with ((seen ++ [combo]) ++ rest)
      by (rewrite <- app_assoc; reflexivity).
    replace (S (List.length seen)) with (List.length (seen ++ [combo]))
      by (rewrite length_app; simpl; lia).
    apply IH. destruct Hinv as (Hnd & Hidx & Hseen). split; [|split].
    + apply obj_set_NoDup. assumption.
    + intros k j Hkj.
      destruct (obj_set_In _ _ _ _ _ Hkj) as [(-> & ->)|Hin].
      * rewrite length_app. simpl. split; [lia|].
        rewrite app_nth2, Nat.sub_diag by lia. reflexivity.
      * destruct (Hidx _ _ Hin) as (Hlt & Hk). rewrite length_app.
        split; [lia|]. rewrite app_nth1 by assumption. assumption.
    + intros c Hc. rewrite obj_set_keys.
      apply in_app_iff in Hc as [Hc|[<-|[]]].
      * destruct (in_dec key_eq_dec (key_of combo) (map fst o));
          [|apply in_app_iff; left]; auto.
      * destruct (in_dec key_eq_dec (key_of combo) (map fst o));
          [assumption|apply in_app_iff; right; left; reflexivity].
Qed.

Lemma insert_index_perm {V : Type} (i : Z) (kv : key * V) l :
  Permutation (insert_index i kv l) ((i, kv) :: l).
Proof.
  induction l as [|[j kv'] l IH]; simpl; [reflexivity|].
  destruct (i <? j)%Z; [reflexivity|].
  rewrite IH. apply perm_swap.
Qed.

(** Enumeration reorders the properties and loses none. *)
Lemma properties_in_order_perm {V : Type} (o : object V) :
  Permutation (properties_in_order o) o.
Proof.
  unfold properties_in_order.
  induction o as [|[k v] o IH]; simpl; [reflexivity|].
  destruct (array_index k) as [i|]; simpl.
  - rewrite insert_index_perm. simpl. constructor. exact IH.
  - rewrite <- Permutation_middle. constructor. exact IH.
Qed.

(** The result of [remove_duplicates]: its combinations are sorted raw
    combinations, its keys are distinct, and every raw combination has its
    key among them. *)
Lemma remove_duplicates_spec (raw : list (list number)) :
  (forall c, In c (remove_duplicates raw) -> exists p, In p raw /\ c = sort p)
  /\ NoDup (map key_of (remove_duplicates raw))
  /\ (forall p, In p raw ->
        In (key_of (sort p)) (map key_of (remove_duplicates raw))).
Proof.
  unfold remove_duplicates, Object_values.
  set (sorted := map sort raw).
  set (o := index_combos sorted 0 []).
  assert (Hinv : indexes sorted o).
  { apply (index_combos_indexes sorted [] []).
    repeat split; simpl; try constructor; try contradiction. }
  destruct Hinv as (Hnd & Hidx & Hseen).
  pose proof (properties_in_order_perm o) as Hperm.
  assert (Hkeys : map key_of
                    (map (fun i => nth i sorted [])
                         (map snd (properties_in_order o)))
                  = map fst (properties_in_order o)).
  { rewrite !map_map. apply map_ext_in. intros [k j] Hin.
    apply (Permutation_in _ Hperm) in Hin. apply Hidx in Hin. apply Hin. }
  repeat split.
  - intros c Hc. rewrite map_map in Hc. apply in_map_iff in Hc
      as ([k j] & <- & Hin).
    apply (Permutation_in _ Hperm) in Hin. apply Hidx in Hin as (Hlt & _).
    simpl. pose proof (nth_In sorted [] Hlt) as Hn.
    unfold sorted in Hn at 2. apply in_map_iff in Hn as (p & Hp & Hin).
    exists p. auto.
  - rewrite Hkeys. apply (Permutation_NoDup (l := map fst o));
      [apply Permutation_map; symmetry; exact Hperm|exact Hnd].
  - intros p Hp. rewrite Hkeys.
    apply (Permutation_in (l := map fst o));
      [apply Permutation_map; symmetry; exact Hperm|].
    apply Hseen. unfold sorted. apply in_map. exact Hp.
Qed.

(** [findCombos] on an array of rolls: the raw search followed by the removal
    of duplicates. *)
Lemma findCombos_array DECIMAL_STATS rolls target stat :
  exists raw,
    findCombos DECIMAL_STATS (Some rolls) target stat
    = Normal (remove_duplicates raw)
    /\ forall p, In p raw <->
         search_path rolls (Number target) (includes DECIMAL_STATS stat) p.
Proof.
  destruct (subsetSum_records rolls (Number target)
                              (includes DECIMAL_STATS stat))
    as (raw & E & Hraw).
  exists raw. unfold findCombos. rewrite E. auto.
Qed.

Lemma insert_sorted_length x l :
  List.length (insert_sorted x l) = S (List.length l).
Proof.
  induction l as [|y l IH]; simpl; [reflexivity|].
  destruct (num_gt (comparator x y) pos_zero); simpl; [rewrite IH|];
    reflexivity.
Qed.

Lemma sort_length p : List.length (sort p) = List.length p.
Proof.
  induction p as [|x p IH]; simpl; [reflexivity|].
  rewrite insert_sorted_length, IH. reflexivity.
Qed.

(** What [findCombos] returns on an array of rolls: sorted search paths,
    one per key, no key of a search path left out. *)
Lemma findCombos_result DECIMAL_STATS rolls target stat result :
  findCombos DECIMAL_STATS (Some rolls) target stat = Normal result ->
  (forall c, In c result ->
     exists p, search_path rolls (Number target)
                           (includes DECIMAL_STATS stat) p
               /\ c = sort p)
  /\ NoDup (map key_of result)
  /\ (forall p, search_path rolls (Number target)
                            (includes DECIMAL_STATS stat) p ->
                In (key_of (sort p)) (map key_of result)).
Proof.
  destruct (findCombos_array DECIMAL_STATS rolls target stat)
    as (raw & E & Hraw).
  rewrite E. intros [= <-].
  destruct (remove_duplicates_spec raw) as (Hsub & Hnd & Hall).
  repeat split.
  - intros c Hc. destruct (Hsub c Hc) as (p & Hp & ->).
    exists p. split; [apply Hraw; assumption|reflexivity].
  - exact Hnd.
  - intros p Hp. apply Hall, Hraw, Hp.
Qed.

(** A search with no search path returns the empty array. *)
Lemma findCombos_no_path DECIMAL_STATS rolls target stat :
  (forall p, ~ search_path rolls (Number target)
                           (includes DECIMAL_STATS stat) p) ->
  findCombos DECIMAL_STATS (Some rolls) target stat = Normal [].
Proof.
  intros Hnone.
  destruct (findCombos_array DECIMAL_STATS rolls target stat)
    as (raw & E & Hraw).
  rewrite E. destruct raw as [|p raw]; [reflexivity|].
  exfalso. apply (Hnone p), Hraw. left; reflexivity.
Qed.

(* ===================================================================== *)
(** ** Completeness and uniqueness of the result *)
(* ===================================================================== *)

(** C1, as stated, fails: with the single candidate 0.5 and the target 1 in
    whole-number mode, the pair 0.5, 0.5 has at most six elements, is drawn
    from the candidates, is sorted, and its rounded sum [Math.round(1)] is the
    rounded target; yet the result is the one combination 0.5, because
    [Math.round(0.5)] is already 1 and the branch halts there. *)
Lemma findCombos_misses_two_halves :
  let rolls := [lit "0.5"] in
  let pair := [lit "0.5"; lit "0.5"] in
  List.length pair <= 6
  /\ Forall (fun roll => In roll rolls) pair
  /\ sort pair = pair
  /\ strict_eq (rounded_sum false pair)
               (Math_round (Number (VNum (lit "1")))) = true
  /\ findCombos [] (Some rolls) (VNum (lit "1")) VUndef
     = Normal [[lit "0.5"]]
  /\ ~ In (key_of pair) (map key_of [[lit "0.5"]]).
Proof.
  cbv zeta. repeat split.
  - simpl. lia.
  - repeat constructor.
  - intros [H|[]]. vm_compute in H. discriminate.
Qed.

(** C1, amended: on an array of candidates the result holds the sorted form
    of every search path exactly once (exactly one combination of the result
    has its key), it holds nothing else, and no two combinations of the
    result have the same key.  A search path is a sequence of candidates
    whose rounded sum is the coerced target and none of whose proper prefixes
    has more than six elements or a rounded sum at or above the target. *)
Theorem findCombos_search_paths_exactly_once
  DECIMAL_STATS rolls target stat result :
  findCombos DECIMAL_STATS (Some rolls) target stat = Normal result ->
  (forall p, search_path rolls (Number target)
                         (includes DECIMAL_STATS stat) p ->
             count_occ key_eq_dec (map key_of result) (key_of (sort p)) = 1)
  /\ (forall c, In c result ->
        exists p, search_path rolls (Number target)
                              (includes DECIMAL_STATS stat) p
                  /\ c = sort p)
  /\ NoDup (map key_of result).
Proof.
  intros E. destruct (findCombos_result _ _ _ _ _ E) as (Hsub & Hnd & Hall).
  repeat split; try assumption.
  intros p Hp. specialize (Hall p Hp).
  apply (count_occ_In key_eq_dec) in Hall.
  pose proof (proj1 (NoDup_count_occ key_eq_dec _) Hnd (key_of (sort p))).
  lia.
Qed.

(** The theorem at the candidates 1, 2 and the target 3. *)
Lemma findCombos_search_paths_exactly_once_witness :
  let result := [[lit "1"; lit "1"; lit "1"]; [lit "1"; lit "2"]] in
  findCombos [] (Some [lit "1"; lit "2"]) (VStr "3") VUndef = Normal result
  /\ ((forall p, search_path [lit "1"; lit "2"] (Number (VStr "3"))
                             (includes [] VUndef) p ->
                 count_occ key_eq_dec (map key_of result) (key_of (sort p))
                 = 1)
      /\ (forall c, In c result ->
            exists p, search_path [lit "1"; lit "2"] (Number (VStr "3"))
                                  (includes [] VUndef) p
                      /\ c = sort p)
      /\ NoDup (map key_of result)).
Proof.
  cbv zeta. split.
  - vm_compute. reflexivity.
  - apply (findCombos_search_paths_exactly_once
             [] [lit "1"; lit "2"] (VStr "3") VUndef).
    vm_compute. reflexivity.
Defined.

(* ===================================================================== *)
(** ** The length of a combination *)
(* ===================================================================== *)

(** No combination has more than seven elements. *)
Lemma findCombos_length_le_7 DECIMAL_STATS rolls target stat result :
  findCombos DECIMAL_STATS (Some rolls) target stat = Normal result ->
  forall c, In c result -> List.length c <= 7.
Proof.
  intros E c Hc.
  destruct (findCombos_result _ _ _ _ _ E) as (Hsub & _ & _).
  destruct (Hsub c Hc) as (p & Hp & ->). rewrite sort_length.
  apply (search_path_within_bounds _ _ _ _ Hp).
Qed.

(** C2, on the failing input: with the single candidate 1 and the target 7
    the result is the combination of seven ones.  A sequence of seven
    partials is recorded before its length is looked at. *)
Theorem findCombos_records_seven_rolls :
  findCombos [] (Some [lit "1"]) (VStr "7") VUndef
  = Normal [repeat (lit "1") 7]
  /\ List.length (repeat (lit "1") 7) = 7.
Proof.
  split; vm_compute; reflexivity.
Qed.

(* ===================================================================== *)
(** ** The target is compared as it is coerced *)
(* ===================================================================== *)

(** C4, as stated, fails: in one-decimal mode the target 14.04 rounds to 14,
    but with the candidate 7 the target 14.04 gives the empty result while
    the target 14 gives the combination 7, 7. *)
Lemma findCombos_target_14_04_differs :
  let stats := ["critDmg"%string] in
  let rolls := [lit "7"] in
  includes stats (VStr "critDmg") = true
  /\ round1 (Number (VStr "14.04")) = lit "14.0"
  /\ findCombos stats (Some rolls) (VStr "14.04") (VStr "critDmg")
     = Normal []
  /\ findCombos stats (Some rolls) (VNum (round1 (Number (VStr "14.04"))))
                (VStr "critDmg")
     = Normal [[lit "7"; lit "7"]].
Proof.
  cbv zeta. repeat split; vm_compute; reflexivity.
Qed.

(** C4, amended: the rounded sums are compared with the target as [Number]
    coerces it, not rounded.  Every combination of the result is the sorted
    form of a sequence whose rounded sum is strictly equal to the coerced
    target. *)
Theorem findCombos_compares_coerced_target
  DECIMAL_STATS rolls target stat result :
  findCombos DECIMAL_STATS (Some rolls) target stat = Normal result ->
  forall c, In c result ->
    exists p, c = sort p
              /\ strict_eq (rounded_sum (includes DECIMAL_STATS stat) p)
                           (Number target) = true.
Proof.
  intros E c Hc.
  destruct (findCombos_result _ _ _ _ _ E) as (Hsub & _ & _).
  destruct (Hsub c Hc) as (p & (_ & _ & Hh) & ->).
  exists p. split; [reflexivity|exact Hh].
Qed.

(** The theorem at the candidate 7 and the target 14.0 in one-decimal mode. *)
Lemma findCombos_compares_coerced_target_witness :
  findCombos ["critDmg"%string] (Some [lit "7"]) (VStr "14.0") (VStr "critDmg")
  = Normal [[lit "7"; lit "7"]]
  /\ forall c, In c [[lit "7"; lit "7"]] ->
       exists p, c = sort p
                 /\ strict_eq
                      (rounded_sum
                         (includes ["critDmg"%string] (VStr "critDmg")) p)
                      (Number (VStr "14.0")) = true.
Proof.
  split.
  - vm_compute. reflexivity.
  - apply (findCombos_compares_coerced_target
             ["critDmg"%string] [lit "7"] (VStr "14.0") (VStr "critDmg")).
    vm_compute. reflexivity.
Defined.

(* ===================================================================== *)
(** ** A target that is not a number *)
(* ===================================================================== *)

(** C6, as stated, fails: the target [abc] coerces to NaN and the call
    returns the empty array, an ordinary result. *)
Lemma findCombos_NaN_target_returns :
  Number (VStr "abc") = NaN
  /\ findCombos [] (Some [lit "1"]) (VStr "abc") VUndef = Normal [].
Proof.
  split; vm_compute; reflexivity.
Qed.

(** C6, amended: when the target coerces to NaN, the call on an array of
    candidates raises nothing and returns the empty array. *)
Theorem findCombos_NaN_target_empty DECIMAL_STATS rolls target stat :
  is_nan (Number target) = true ->
  findCombos DECIMAL_STATS (Some rolls) target stat = Normal [].
Proof.
  intros Hnan. apply findCombos_no_path. intros p (_ & _ & Hh).
  unfold hits in Hh. destruct (Number target); try discriminate.
  change S754_nan with NaN in Hh. rewrite strict_eq_NaN_r in Hh.
  discriminate.
Qed.

(** The theorem at a missing target, which coerces to NaN. *)
Lemma findCombos_NaN_target_empty_witness :
  is_nan (Number VUndef) = true
  /\ findCombos ["critRate"%string] (Some [lit "2.7"; lit "3.1"]) VUndef
                (VStr "critRate")
     = Normal [].
Proof.
  split.
  - reflexivity.
  - apply (findCombos_NaN_target_empty
             ["critRate"%string] [lit "2.7"; lit "3.1"] VUndef
             (VStr "critRate")).
    reflexivity.
Defined.

(* ===================================================================== *)
(** ** A target that no sum reaches *)
(* ===================================================================== *)

(** C7, on the failing input: with the single candidate 1 and the target 7
    in whole-number mode, no sequence of at most six candidates has a rounded
    sum equal to the rounded target, which is the target itself; yet the
    result is not empty: it holds the combination of seven ones.  The
    scenario of the claim, the candidate 5 and the target 12, does give the
    empty array. *)
Theorem findCombos_not_empty_beyond_six_rolls :
  includes [] VUndef = false
  /\ Math_round (Number (VStr "7")) = Number (VStr "7")
  /\ (forall p, Forall (fun roll => In roll [lit "1"]) p ->
                List.length p <= 6 ->
                strict_eq (rounded_sum false p)
                          (Math_round (Number (VStr "7"))) = false)
  /\ findCombos [] (Some [lit "1"]) (VStr "7") VUndef
     = Normal [repeat (lit "1") 7]
  /\ findCombos [] (Some [lit "5"]) (VNum (lit "12")) VUndef = Normal [].
Proof.
  split; [reflexivity|]. split; [vm_compute; reflexivity|].
  split; [|split; vm_compute; reflexivity].
  intros p Hall Hlen.
  do 7 (destruct p as [|? p];
        [vm_compute; reflexivity
        |apply Forall_cons_iff in Hall as ([<-|[]] & Hall)]).
  simpl in Hlen. lia.
Qed.

(** When no sequence of at most seven candidates has a rounded sum strictly
    equal to the target as [Number] coerces it, the call raises nothing and
    returns the empty array.  In whole-number mode the same holds with the
    coerced target rounded by [Math.round] in the hypothesis. *)
Theorem findCombos_empty_when_unreachable DECIMAL_STATS rolls target stat :
  ((forall p, within_bounds rolls p ->
              strict_eq (rounded_sum (includes DECIMAL_STATS stat) p)
                        (Number target) = false) ->
   findCombos DECIMAL_STATS (Some rolls) target stat = Normal [])
  /\ (includes DECIMAL_STATS stat = false ->
      (forall p, within_bounds rolls p ->
                 strict_eq (rounded_sum false p)
                           (Math_round (Number target)) = false) ->
      findCombos DECIMAL_STATS (Some rolls) target stat = Normal []).
Proof.
  split.
  - intros Hnone. apply findCombos_no_path. intros p Hp.
    pose proof (search_path_within_bounds _ _ _ _ Hp) as Hb.
    destruct Hp as (_ & _ & Hh). unfold hits in Hh.
    rewrite (Hnone p Hb) in Hh. discriminate.
  - intros Hmode Hnone. apply findCombos_no_path. intros p Hp.
    pose proof (search_path_within_bounds _ _ _ _ Hp) as Hb.
    destruct Hp as (_ & _ & Hh). unfold hits in Hh. rewrite Hmode in Hh.
    apply strict_eq_Math_round in Hh. unfold rounded_sum in Hnone.
    rewrite (Hnone p Hb) in Hh. discriminate.
Qed.

(** The theorem at the candidate 5 and the target 12: no sequence of at
    most seven fives sums to 12. *)
Lemma findCombos_empty_when_unreachable_witness :
  (forall p, within_bounds [lit "5"] p ->
             strict_eq (rounded_sum (includes [] VUndef) p)
                       (Number (VStr "12")) = false)
  /\ findCombos [] (Some [lit "5"]) (VStr "12") VUndef = Normal [].
Proof.
  assert (H : forall p, within_bounds [lit "5"] p ->
                strict_eq (rounded_sum (includes [] VUndef) p)
                          (Number (VStr "12")) = false).
  { intros p (Hall & Hlen).
    do 8 (destruct p as [|? p];
          [vm_compute; reflexivity
          |apply Forall_cons_iff in Hall as ([<-|[]] & Hall)]).
    simpl in Hlen. lia. }
  split.
  - exact H.
  - apply (proj1 (findCombos_empty_when_unreachable
                    [] [lit "5"] (VStr "12") VUndef)).
    exact H.
Defined.

(* ===================================================================== *)
(** ** Prefixes of a combination *)
(* ===================================================================== *)

(** C8, as stated, fails: the candidates 0.4 and 0.7 are non-negative and
    the target is 3 in whole-number mode.  The result holds the sorted
    combination 0.4, 0.7, 0.7, 0.7, 0.7, whose proper prefix of four
    elements sums to 2.5 and rounds to 3, the rounded target.  The search
    got there by 0.7, 0.7, 0.7, 0.4, whose sum is 2.4999999999999996 and
    rounds to 2. *)
Lemma findCombos_sorted_prefix_at_target :
  let rolls := [lit "0.4"; lit "0.7"] in
  let combo := [lit "0.4"; lit "0.7"; lit "0.7"; lit "0.7"; lit "0.7"] in
  Forall (fun roll => num_ge roll pos_zero = true) rolls
  /\ (exists result,
        findCombos [] (Some rolls) (VStr "3") VUndef = Normal result
        /\ In combo result)
  /\ sort combo = combo
  /\ 4 < List.length combo
  /\ rounded_sum false (firstn 4 combo) = lit "3"
  /\ num_lt (rounded_sum false (firstn 4 combo))
            (Math_round (Number (VStr "3"))) = false
  /\ rounded_sum false [lit "0.7"; lit "0.7"; lit "0.7"; lit "0.4"]
     = lit "2".
Proof.
  cbv zeta. repeat split.
  - repeat constructor.
  - eexists. split; [vm_compute; reflexivity|].
    do 7 right. left. reflexivity.
  - simpl. lia.
Qed.

(** C8, amended: every combination of the result is the sorted form of a
    sequence, in the order the search appended its elements, whose rounded
    sum is the target and every proper prefix of which has a rounded sum
    strictly below the target. *)
Theorem findCombos_path_prefixes_below_target
  DECIMAL_STATS rolls target stat result :
  findCombos DECIMAL_STATS (Some rolls) target stat = Normal result ->
  forall c, In c result ->
    exists p, c = sort p
      /\ (forall n, n < List.length p ->
            num_lt (rounded_sum (includes DECIMAL_STATS stat) (firstn n p))
                   (Number target) = true)
      /\ strict_eq (rounded_sum (includes DECIMAL_STATS stat) p)
                   (Number target) = true.
Proof.
  intros E c Hc.
  destruct (findCombos_result _ _ _ _ _ E) as (Hsub & _ & _).
  destruct (Hsub c Hc) as (p & (_ & Hk & Hh) & ->).
  exists p. repeat split; [|exact Hh].
  intros n Hn. specialize (Hk n Hn). unfold continues in Hk.
  apply andb_true_iff in Hk as (Hge & _). apply negb_true_iff in Hge.
  apply prefix_below_target; assumption.
Qed.

(** The theorem at the candidates 1, 2 and the target 3. *)
Lemma findCombos_path_prefixes_below_target_witness :
  findCombos [] (Some [lit "1"; lit "2"]) (VStr "3") VUndef
  = Normal [[lit "1"; lit "1"; lit "1"]; [lit "1"; lit "2"]]
  /\ forall c, In c [[lit "1"; lit "1"; lit "1"]; [lit "1"; lit "2"]] ->
       exists p, c = sort p
         /\ (forall n, n < List.length p ->
               num_lt (rounded_sum (includes [] VUndef) (firstn n p))
                      (Number (VStr "3")) = true)
         /\ strict_eq (rounded_sum (includes [] VUndef) p)
                      (Number (VStr "3")) = true.
Proof.
  split.
  - vm_compute. reflexivity.
  - apply (findCombos_path_prefixes_below_target
             [] [lit "1"; lit "2"] (VStr "3") VUndef).
    vm_compute. reflexivity.
Defined.

(* ===================================================================== *)
(** ** Termination of the search *)
(* ===================================================================== *)

Lemma continues_length target oneDecimal partials :
  continues target oneDecimal partials = true -> List.length partials <= 6.
Proof.
  unfold continues. intros H. apply andb_true_iff in H as (_ & H).
  apply Nat.leb_le. exact H.
Qed.

Lemma for_of_map {A B S : Type} (f : A -> B) (xs : list A)
  (body : B -> S -> completion S) (s : S) :
  for_of (map f xs) body s = for_of xs (fun x => body (f x)) s.
Proof.
  revert s. induction xs as [|x xs IH]; intros s; simpl; [reflexivity|].
  destruct (body (f x) s); [apply IH|reflexivity].
Qed.

Lemma sequences_complete rolls n p :
  Forall (fun roll => In roll rolls) p -> List.length p <= n ->
  In p (sequences rolls n).
Proof.
  revert p. induction n as [|n IH]; intros p Hall Hlen.
  - destruct p; [left; reflexivity|simpl in Hlen; lia].
  - destruct p as [|roll p]; [left; reflexivity|].
    right. apply Forall_cons_iff in Hall as (Hin & Hall).
    apply in_flat_map. exists roll. split; [exact Hin|].
    apply in_map, IH; [exact Hall|simpl in Hlen; lia].
Qed.

(** C9: the recursive search ends.  The relation between a call and the
    recursive calls it makes is well founded; a call makes one recursive
    call per candidate, or none; the calls made from the empty sequence are
    on sequences of at most seven candidates, all in a finite list; and on an
    array of candidates every call returns, with the array [found]
    extended. *)
Theorem subsetSum_search_ends rolls target oneDecimal :
  well_founded (calls rolls target oneDecimal)
  /\ (forall found partials,
        subsetSum (Some rolls) target found oneDecimal partials
        = for_of (children rolls target oneDecimal partials)
            (fun child found' =>
               subsetSum (Some rolls) target found' oneDecimal child)
            (record target oneDecimal found partials))
  /\ (forall partials child,
        calls rolls target oneDecimal child partials
        <-> In child (children rolls target oneDecimal partials))
  /\ (forall partials,
        List.length (children rolls target oneDecimal partials)
        <= List.length rolls)
  /\ (forall p, reaches rolls target oneDecimal [] p ->
                List.length p <= 7 /\ In p (sequences rolls 7))
  /\ (forall found partials, exists new,
        subsetSum (Some rolls) target found oneDecimal partials
        = Normal (found ++ new)).
Proof.
  assert (Hdepth : forall p, reaches rolls target oneDecimal [] p ->
                     Forall (fun roll => In roll rolls) p
                     /\ List.length p <= 7).
  { intros p H. apply reaches_iff in H as (ext & -> & Hall & Hk).
    split; [exact Hall|].
    destruct (Nat.le_gt_cases (List.length ext) 7) as [|Hgt]; [assumption|].
    specialize (Hk 7 Hgt). apply continues_length in Hk.
    change ([] ++ firstn 7 ext) with (firstn 7 ext) in Hk.
    rewrite length_firstn in Hk. lia. }
  split; [|split; [|split; [|split; [|split]]]].
  - apply (well_founded_lt_compat _ (fun p => 7 - List.length p)).
    intros child parent (Hc & roll & _ & ->).
    apply continues_length in Hc. rewrite length_app.
    change (List.length [roll]) with 1. lia.
  - intros found partials. unfold children.
    destruct (continues target oneDecimal partials) eqn:Hc.
    + rewrite for_of_map. apply subsetSum_continues. exact Hc.
    + apply subsetSum_halts. exact Hc.
  - intros partials child. unfold children, calls.
    destruct (continues target oneDecimal partials).
    + rewrite in_map_iff. split.
      * intros (_ & roll & Hin & ->). exists roll. auto.
      * intros (roll & <- & Hin). split; [reflexivity|]. exists roll. auto.
    + split; [intros (Hc & _); discriminate|intros []].
  - intros partials. unfold children.
    destruct (continues target oneDecimal partials);
      [rewrite length_map; lia|apply Nat.le_0_l].
  - intros p H. destruct (Hdepth p H) as (Hall & Hlen).
    split; [exact Hlen|]. apply sequences_complete; assumption.
  - intros found partials.
    destruct (subsetSum_appends rolls target oneDecimal
                (7 - List.length partials) partials found (le_n _))
      as (new & E & _).
    exists new. exact E.
Qed.

(* ===================================================================== *)
(** ** The estimator *)
(* ===================================================================== *)

Lemma rate_substat_normal ROLLS WEIGHTING f sub r :
  call f (get ROLLS (stat sub)) (amount sub) VUndef = Normal r ->
  rate_substat ROLLS WEIGHTING f sub
  = (set_numRolls (set_weight sub (weighting WEIGHTING (stat sub))) r,
     Normal VUndef).
Proof.
  intros E. unfold rate_substat. simpl. rewrite E. reflexivity.
Qed.

Lemma rate_substat_throw ROLLS WEIGHTING f sub e :
  call f (get ROLLS (stat sub)) (amount sub) VUndef = Throw e ->
  rate_substat ROLLS WEIGHTING f sub
  = (set_weight sub (weighting WEIGHTING (stat sub)), Throw e).
Proof.
  intros E. unfold rate_substat. simpl. rewrite E. reflexivity.
Qed.

Lemma rate_substat_keeps ROLLS WEIGHTING f sub :
  stat (fst (rate_substat ROLLS WEIGHTING f sub)) = stat sub
  /\ amount (fst (rate_substat ROLLS WEIGHTING f sub)) = amount sub.
Proof.
  unfold rate_substat.
  destruct (call f _ _ _); simpl; split; reflexivity.
Qed.

Lemma map_substats_keeps ROLLS WEIGHTING f subs :
  map stat (fst (map_substats ROLLS WEIGHTING f subs)) = map stat subs
  /\ map amount (fst (map_substats ROLLS WEIGHTING f subs)) = map amount subs.
Proof.
  induction subs as [|sub rest (IHs & IHa)]; simpl; [split; reflexivity|].
  destruct (rate_substat_keeps ROLLS WEIGHTING f sub) as (Hs & Ha).
  destruct (rate_substat ROLLS WEIGHTING f sub) as [sub' [v|e]]; simpl in *.
  - destruct (map_substats ROLLS WEIGHTING f rest) as [rest' [vs|e]];
      simpl in *; rewrite Hs, Ha, IHs, IHa; split; reflexivity.
  - rewrite Hs, Ha. split; reflexivity.
Qed.

Lemma map_substats_stops ROLLS WEIGHTING f before sub after e :
  (forall s, In s before ->
     exists r, call f (get ROLLS (stat s)) (amount s) VUndef = Normal r) ->
  call f (get ROLLS (stat sub)) (amount sub) VUndef = Throw e ->
  map_substats ROLLS WEIGHTING f (before ++ sub :: after)
  = (map (fun s => fst (rate_substat ROLLS WEIGHTING f s)) before
     ++ set_weight sub (weighting WEIGHTING (stat sub)) :: after,
     Throw e).
Proof.
  intros Hbefore Hthrow. induction before as [|s before IH]; simpl.
  - rewrite (rate_substat_throw _ _ _ _ _ Hthrow). reflexivity.
  - destruct (Hbefore s (or_introl eq_refl)) as (r & Hr).
    rewrite (rate_substat_normal _ _ _ _ _ Hr).
    rewrite IH by (intros s' Hs'; apply Hbefore; right; exact Hs').
    reflexivity.
Qed.

Lemma map_substats_normal ROLLS WEIGHTING f subs logged :
  snd (map_substats ROLLS WEIGHTING f subs) = Normal logged ->
  logged = repeat VUndef (List.length subs)
  /\ Forall2 (rated ROLLS WEIGHTING f) subs
             (fst (map_substats ROLLS WEIGHTING f subs)).
Proof.
  revert logged. induction subs as [|sub rest IH]; intros logged; simpl.
  - intros [= <-]. split; [reflexivity|constructor].
  - unfold rate_substat. simpl.
    destruct (call f (get ROLLS (stat sub)) (amount sub) VUndef)
      as [r|e] eqn:E; [|discriminate].
    destruct (map_substats ROLLS WEIGHTING f rest) as [rest' [vs|e]];
      simpl in *; [|discriminate].
    intros [= <-]. destruct (IH vs eq_refl) as (-> & Hall).
    split; [reflexivity|]. constructor; [|exact Hall].
    repeat split. exists r. split; [exact E|reflexivity].
Qed.

Lemma map_substats_written ROLLS WEIGHTING f subs :
  Forall2 (written ROLLS WEIGHTING f) subs
          (fst (map_substats ROLLS WEIGHTING f subs)).
Proof.
  induction subs as [|sub rest IH]; simpl; [constructor|].
  unfold rate_substat. simpl.
  destruct (call f (get ROLLS (stat sub)) (amount sub) VUndef)
    as [r|e] eqn:E.
  - destruct (map_substats ROLLS WEIGHTING f rest) as [rest' [vs|e]];
      simpl in *; (constructor; [|exact IH]);
      right; right; exists r; (split; [exact E|reflexivity]).
  - simpl. constructor.
    + right; left. split; [reflexivity|]. exists e. exact E.
    + clear. induction rest; constructor; [left; reflexivity|assumption].
Qed.

Lemma map_rate_substat_rated ROLLS WEIGHTING f subs :
  (forall s, In s subs ->
     exists r, call f (get ROLLS (stat s)) (amount s) VUndef = Normal r) ->
  Forall2 (rated ROLLS WEIGHTING f) subs
          (map (fun s => fst (rate_substat ROLLS WEIGHTING f s)) subs).
Proof.
  induction subs as [|s subs IH]; intros H; simpl; constructor.
  - destruct (H s (or_introl eq_refl)) as (r & Hr).
    rewrite (rate_substat_normal _ _ _ _ _ Hr). simpl.
    repeat split. exists r. split; [exact Hr|reflexivity].
  - apply IH. intros s' Hs'. apply H. right. exact Hs'.
Qed.

(** [SUBSTAT_WEIGHTING[stat]] on the example table: an own entry, a kind
    that only [Object.prototype] has, a kind that nothing has, and an own
    entry that shadows an inherited one. *)
Lemma weighting_follows_prototype_chain :
  weighting example_WEIGHTING "critRate" = VNum (lit "1")
  /\ weighting example_WEIGHTING "toString" = VInherited "toString"
  /\ weighting example_WEIGHTING "__proto__" = VInherited "__proto__"
  /\ weighting example_WEIGHTING "bogus" = VUndef
  /\ weighting [("toString"%string, lit "2")] "toString" = VNum (lit "2").
Proof.
  repeat split; vm_compute; reflexivity.
Qed.

(** As the module is written, the name [findCombos] is bound to
    [undefined]: the very first substat makes the call throw. *)
Lemma ratePower_first_call_throws DECIMAL_STATS ROLLS WEIGHTING a sub rest :
  substats a = sub :: rest ->
  ratePower DECIMAL_STATS ROLLS WEIGHTING a
  = (set_substats a (set_weight sub (weighting WEIGHTING (stat sub)) :: rest),
     Throw TypeError_not_a_function).
Proof.
  intros E. unfold ratePower, ratePower_with. rewrite E. reflexivity.
Qed.

(** The call that [ratePower] writes passes no stat, so the mode is the
    whole-number one whatever the table of decimal stats holds. *)
Lemma findCombos_without_stat DECIMAL_STATS possibleRolls target :
  findCombos DECIMAL_STATS possibleRolls target VUndef
  = findCombos [] possibleRolls target VUndef.
Proof. reflexivity. Qed.

(** C3, on the failing input: the substat [critRate] of [TEST_ARTIFACT] is
    a one-decimal stat of the example tables.  The call that [ratePower]
    writes passes no stat, so it does not depend on the table of decimal
    stats; bound to the function, it runs in whole-number mode and finds
    nothing for 12.8, where the one-decimal mode finds four combinations.
    As the module is written, the call throws before any search. *)
Theorem ratePower_ignores_decimal_stats :
  (forall DECIMAL_STATS ROLLS WEIGHTING sub,
     rate_substat ROLLS WEIGHTING (Some (findCombos DECIMAL_STATS)) sub
     = rate_substat ROLLS WEIGHTING (Some (findCombos [])) sub)
  /\ (let sub := {| stat := "critRate"; amount := VStr "12.8";
                    weight := None; numRolls := None |} in
      In sub (substats TEST_ARTIFACT)
      /\ includes example_DECIMAL_STATS (VStr (stat sub)) = true
      /\ numRolls (fst (rate_substat example_ROLLS example_WEIGHTING
                          (Some (findCombos example_DECIMAL_STATS)) sub))
         = Some []
      /\ findCombos example_DECIMAL_STATS (get example_ROLLS (stat sub))
                    (amount sub) (VStr (stat sub))
         = Normal
             [ [lit "2.7"; lit "2.7"; lit "3.5"; lit "3.9"];
               [lit "2.7"; lit "3.1"; lit "3.1"; lit "3.9"];
               [lit "2.7"; lit "3.1"; lit "3.5"; lit "3.5"];
               [lit "3.1"; lit "3.1"; lit "3.1"; lit "3.5"] ])
  /\ snd (ratePower example_DECIMAL_STATS example_ROLLS example_WEIGHTING
                    TEST_ARTIFACT)
     = Throw TypeError_not_a_function.
Proof.
  split; [|split].
  - intros. unfold rate_substat, call.
    rewrite findCombos_without_stat. reflexivity.
  - cbv zeta. split; [left; reflexivity|].
    repeat split; vm_compute; reflexivity.
  - reflexivity.
Qed.

(** C5, as stated, fails: the kind [bogus] is in neither table.  The call
    throws a [TypeError] that names no attribute, and the sibling [Def] is
    left without weight and without combinations, both as the module is
    written and with [findCombos] bound to the function. *)
Lemma ratePower_unknown_kind_aborts :
  let bogus := {| stat := "bogus"; amount := VStr "5";
                  weight := None; numRolls := None |} in
  let def := {| stat := "Def"; amount := VStr "21";
                weight := None; numRolls := None |} in
  let a := set_substats TEST_ARTIFACT [bogus; def] in
  get example_ROLLS "bogus" = None
  /\ get example_WEIGHTING "bogus" = None
  /\ ratePower example_DECIMAL_STATS example_ROLLS example_WEIGHTING a
     = (set_substats a [set_weight bogus VUndef; def],
        Throw TypeError_not_a_function)
  /\ ratePower_with example_ROLLS example_WEIGHTING
                    (Some (findCombos example_DECIMAL_STATS)) a
     = (set_substats a [set_weight bogus VUndef; def],
        Throw TypeError_not_iterable).
Proof.
  cbv zeta. repeat split; vm_compute; reflexivity.
Qed.

(** C5, amended: when the call to the combination finder throws for an
    attribute, having returned for the attributes before it, [ratePower]
    throws the same error and stops there.  The attributes before it have
    kept their stat and amount and have their weight and the combinations
    their calls returned, the failing attribute has its weight only, and the
    attributes after it are left as they were. *)
Theorem ratePower_stops_at_first_throw
  ROLLS WEIGHTING f a before sub after e :
  substats a = before ++ sub :: after ->
  (forall s, In s before ->
     exists r, call f (get ROLLS (stat s)) (amount s) VUndef = Normal r) ->
  call f (get ROLLS (stat sub)) (amount sub) VUndef = Throw e ->
  ratePower_with ROLLS WEIGHTING f a
  = (set_substats a
       (map (fun s => fst (rate_substat ROLLS WEIGHTING f s)) before
        ++ set_weight sub (weighting WEIGHTING (stat sub)) :: after),
     Throw e)
  /\ Forall2 (rated ROLLS WEIGHTING f) before
             (map (fun s => fst (rate_substat ROLLS WEIGHTING f s)) before).
Proof.
  intros E Hbefore Hthrow. split.
  - unfold ratePower_with.
    rewrite E, (map_substats_stops _ _ _ _ _ _ _ Hbefore Hthrow).
    reflexivity.
  - apply map_rate_substat_rated, Hbefore.
Qed.

(** The theorem at an artifact whose second substat has an unknown kind,
    with [findCombos] bound to the function. *)
Lemma ratePower_stops_at_first_throw_witness :
  let def := {| stat := "Def"; amount := VStr "21";
                weight := None; numRolls := None |} in
  let bogus := {| stat := "bogus"; amount := VStr "5";
                  weight := None; numRolls := None |} in
  let critDmg := {| stat := "critDmg"; amount := VStr "14.0";
                    weight := None; numRolls := None |} in
  let f := Some (findCombos example_DECIMAL_STATS) in
  let a := set_substats TEST_ARTIFACT [def; bogus; critDmg] in
  ratePower_with example_ROLLS example_WEIGHTING f a
  = (set_substats a
       (map (fun s => fst (rate_substat example_ROLLS example_WEIGHTING f s))
            [def]
        ++ set_weight bogus (weighting example_WEIGHTING (stat bogus))
        :: [critDmg]),
     Throw TypeError_not_iterable)
  /\ Forall2 (rated example_ROLLS example_WEIGHTING f) [def]
             (map (fun s =>
                     fst (rate_substat example_ROLLS example_WEIGHTING f s))
                  [def]).
Proof.
  cbv zeta.
  apply (ratePower_stops_at_first_throw
           example_ROLLS example_WEIGHTING
           (Some (findCombos example_DECIMAL_STATS))
           (set_substats TEST_ARTIFACT
              [ {| stat := "Def"; amount := VStr "21";
                   weight := None; numRolls := None |};
                {| stat := "bogus"; amount := VStr "5";
                   weight := None; numRolls := None |};
                {| stat := "critDmg"; amount := VStr "14.0";
                   weight := None; numRolls := None |} ])
           [ {| stat := "Def"; amount := VStr "21";
                weight := None; numRolls := None |} ]).
  - reflexivity.
  - intros s [<-|[]]. eexists. vm_compute. reflexivity.
  - vm_compute. reflexivity.
Defined.

(** C10, as stated, fails: after [ratePower(TEST_ARTIFACT)] the first
    substat object has a [weight] property it did not have; with
    [findCombos] bound to the function every substat has a [weight] and a
    [numRolls] property, and the array that is logged only holds
    [undefined]. *)
Lemma ratePower_writes_to_substats :
  let after :=
    fst (ratePower example_DECIMAL_STATS example_ROLLS example_WEIGHTING
                   TEST_ARTIFACT) in
  let bound :=
    ratePower_with example_ROLLS example_WEIGHTING
                   (Some (findCombos example_DECIMAL_STATS)) TEST_ARTIFACT in
  map weight (substats TEST_ARTIFACT) = [None; None; None; None]
  /\ map weight (substats after) = [Some (VNum (lit "1")); None; None; None]
  /\ after <> TEST_ARTIFACT
  /\ map weight (substats (fst bound))
     = [Some (VNum (lit "1")); Some (VNum (lit "1"));
        Some (VNum (lit "0.5")); Some (VNum (lit "0.25"))]
  /\ map numRolls (substats (fst bound))
     = [Some []; Some [[lit "6.2"; lit "7.8"]; [lit "7.0"; lit "7.0"]];
        Some []; Some [[lit "21"]]]
  /\ snd bound = Normal [VUndef; VUndef; VUndef; VUndef].
Proof.
  cbv zeta. repeat split; try (vm_compute; reflexivity).
  intros H. apply (f_equal (fun a => map weight (substats a))) in H.
  vm_compute in H. discriminate.
Qed.

(** C10, amended: [ratePower] writes to the substat objects of its
    argument, and to nothing else of it.  The name, slot, level and main
    stat of the artifact, and the stat and amount of every substat, in their
    order, are after the call what they were before.  Each substat object is
    after the call as it was, or has had its weight assigned, its call to
    the finder having thrown, or has had its weight assigned and [numRolls]
    assigned what its call to the finder returned.  When [ratePower]
    returns, the array that is logged holds [undefined] for every substat,
    and every substat object holds its weight and its combinations: the
    evidence is in the argument, not in what is reported. *)
Theorem ratePower_keeps_all_but_weight_and_numRolls ROLLS WEIGHTING f a :
  let after := fst (ratePower_with ROLLS WEIGHTING f a) in
  name after = name a
  /\ slot after = slot a
  /\ level after = level a
  /\ mainStat after = mainStat a
  /\ mainStatAmount after = mainStatAmount a
  /\ map stat (substats after) = map stat (substats a)
  /\ map amount (substats after) = map amount (substats a)
  /\ Forall2 (written ROLLS WEIGHTING f) (substats a) (substats after)
  /\ (forall logged,
        snd (ratePower_with ROLLS WEIGHTING f a) = Normal logged ->
        logged = repeat VUndef (List.length (substats a))
        /\ Forall2 (rated ROLLS WEIGHTING f) (substats a) (substats after)).
Proof.
  cbv zeta. unfold ratePower_with.
  destruct (map_substats_keeps ROLLS WEIGHTING f (substats a)) as (Hs & Ha).
  pose proof (map_substats_written ROLLS WEIGHTING f (substats a)) as Hw.
  pose proof (map_substats_normal ROLLS WEIGHTING f (substats a)) as Hn.
  destruct (map_substats ROLLS WEIGHTING f (substats a)) as [subs logged].
  simpl in *.
  split; [reflexivity|]. split; [reflexivity|]. split; [reflexivity|].
  split; [reflexivity|]. split; [reflexivity|].
  split; [exact Hs|]. split; [exact Ha|]. split; [exact Hw|].
  intros logged' H. apply Hn, H.
Qed.

(** The theorem at [TEST_ARTIFACT], with [findCombos] bound to the
    function: the call returns, and the array that is logged holds
    [undefined] four times. *)
Lemma ratePower_keeps_all_but_weight_and_numRolls_witness :
  let f := Some (findCombos example_DECIMAL_STATS) in
  let outcome :=
    ratePower_with example_ROLLS example_WEIGHTING f TEST_ARTIFACT in
  snd outcome = Normal [VUndef; VUndef; VUndef; VUndef]
  /\ Forall2 (written example_ROLLS example_WEIGHTING f)
             (substats TEST_ARTIFACT) (substats (fst outcome))
  /\ [VUndef; VUndef; VUndef; VUndef]
     = repeat VUndef (List.length (substats TEST_ARTIFACT))
  /\ Forall2 (rated example_ROLLS example_WEIGHTING f)
             (substats TEST_ARTIFACT) (substats (fst outcome)).
Proof.
  cbv zeta.
  destruct (ratePower_keeps_all_but_weight_and_numRolls
              example_ROLLS example_WEIGHTING
              (Some (findCombos example_DECIMAL_STATS)) TEST_ARTIFACT)
    as (_ & _ & _ & _ & _ & _ & _ & Hw & Hl).
  split; [vm_compute; reflexivity|].
  split; [exact Hw|].
  apply (Hl [VUndef; VUndef; VUndef; VUndef]).
  vm_compute. reflexivity.
Defined.

(* ===================================================================== *)
(** ** Further properties *)
(* ===================================================================== *)

(** The scenarios of the specification.  In one-decimal mode the candidates
    0.8, 1.6, 2.2 and the target 2.2 give the single combination 2.2.  The
    candidates 1, 2 and the target 3 give the combinations 1, 1, 1 and 1, 2;
    the raw search finds 1, 2 and 2, 1, and the result holds their sorted form
    once. *)
Theorem findCombos_scenarios :
  findCombos ["critRate"%string] (Some [lit "0.8"; lit "1.6"; lit "2.2"])
             (VStr "2.2") (VStr "critRate")
  = Normal [[lit "2.2"]]
  /\ subsetSum (Some [lit "1.0"; lit "2.0"]) (lit "3.0") [] false []
     = Normal [[lit "1.0"; lit "1.0"; lit "1.0"]; [lit "1.0"; lit "2.0"];
               [lit "2.0"; lit "1.0"]]
  /\ findCombos [] (Some [lit "1.0"; lit "2.0"]) (VStr "3.0") VUndef
     = Normal [[lit "1.0"; lit "1.0"; lit "1.0"]; [lit "1.0"; lit "2.0"]].
Proof.
  repeat split; vm_compute; reflexivity.
Qed.

(** Without an array of candidates (with [undefined], as a table gives for
    a missing key, or with a function or object that it inherits) the call
    throws when it gets to the loop, that is unless the empty sum already
    halts the search. *)
Theorem findCombos_undefined_rolls DECIMAL_STATS target stat :
  findCombos DECIMAL_STATS None target stat
  = if continues (Number target) (includes DECIMAL_STATS stat) []
    then Throw TypeError_not_iterable
    else Normal (remove_duplicates
                   (record (Number target) (includes DECIMAL_STATS stat)
                           [] [])).
Proof.
  unfold findCombos.
  destruct (continues (Number target) (includes DECIMAL_STATS stat) [])
    eqn:Hc.
  - rewrite subsetSum_body. cbv zeta.
    unfold continues in Hc. apply andb_true_iff in Hc as (Hge & _).
    apply negb_true_iff in Hge. rewrite Hge. reflexivity.
  - rewrite (subsetSum_halts _ _ _ _ _ Hc). reflexivity.
Qed.

(** The bound is reached: the candidate 1 and the target 7. *)
Lemma findCombos_length_le_7_witness :
  findCombos [] (Some [lit "1"]) (VStr "7") VUndef
  = Normal [repeat (lit "1") 7]
  /\ forall c, In c [repeat (lit "1") 7] -> List.length c <= 7.
Proof.
  split.
  - vm_compute. reflexivity.
  - apply (findCombos_length_le_7 [] [lit "1"] (VStr "7") VUndef).
    vm_compute. reflexivity.
Defined.

(** [ratePower(TEST_ARTIFACT)], the call the module makes when it loads. *)
Lemma ratePower_first_call_throws_witness :
  ratePower example_DECIMAL_STATS example_ROLLS example_WEIGHTING TEST_ARTIFACT
  = (set_substats TEST_ARTIFACT
       (set_weight {| stat := "critRate"; amount := VStr "12.8";
                      weight := None; numRolls := None |}
                   (weighting example_WEIGHTING "critRate")
        :: tl (substats TEST_ARTIFACT)),
     Throw TypeError_not_a_function).
Proof.
  apply (ratePower_first_call_throws
           example_DECIMAL_STATS example_ROLLS example_WEIGHTING
           TEST_ARTIFACT).
  reflexivity.
Defined.

(* ===================================================================== *)
(** ** [round1] on the values that are not finite *)
(* ===================================================================== *)

(** [round1] never makes NaN of a number, and it keeps NaN, the infinities
    and the zeros, with their sign. *)
Theorem round1_keeps_special_values :
  (forall x, is_nan (round1 x) = is_nan x)
  /\ (forall s, round1 (S754_infinity s) = S754_infinity s)
  /\ (forall s, round1 (S754_zero s) = S754_zero s).
Proof.
  split; [exact round1_nan|].
  split; intros []; reflexivity.
Qed.

(* ===================================================================== *)
(** ** The search at its edges *)
(* ===================================================================== *)

Lemma rounded_sum_nil oneDecimal : rounded_sum oneDecimal [] = pos_zero.
Proof. destruct oneDecimal; reflexivity. Qed.

Lemma remove_duplicates_record_nil target oneDecimal :
  remove_duplicates (record target oneDecimal [] [])
  = if strict_eq pos_zero target then [[]] else [].
Proof.
  unfold record. rewrite rounded_sum_nil.
  destruct (strict_eq pos_zero target); reflexivity.
Qed.

(** A target at or below zero ends the search at once, whatever the
    candidates are, also when there is no array of them: the result is the
    empty combination alone when the target is zero, and nothing
    otherwise. *)
Theorem findCombos_target_at_or_below_zero
  DECIMAL_STATS possibleRolls target stat :
  num_ge pos_zero (Number target) = true ->
  findCombos DECIMAL_STATS possibleRolls target stat
  = Normal (if strict_eq pos_zero (Number target) then [[]] else []).
Proof.
  intros Hge. unfold findCombos.
  rewrite subsetSum_halts.
  - rewrite remove_duplicates_record_nil. reflexivity.
  - unfold continues. rewrite rounded_sum_nil, Hge. reflexivity.
Qed.

(** The theorem at the target -1 and no array of candidates. *)
Lemma findCombos_target_at_or_below_zero_witness :
  num_ge pos_zero (Number (VStr "-1")) = true
  /\ findCombos [] None (VStr "-1") VUndef
     = Normal (if strict_eq pos_zero (Number (VStr "-1")) then [[]] else []).
Proof.
  split.
  - reflexivity.
  - apply (findCombos_target_at_or_below_zero [] None (VStr "-1") VUndef).
    reflexivity.
Defined.

(** With an empty array of candidates the result is the empty combination
    alone when the target is zero, and nothing otherwise. *)
Theorem findCombos_no_candidates DECIMAL_STATS target stat :
  findCombos DECIMAL_STATS (Some []) target stat
  = Normal (if strict_eq pos_zero (Number target) then [[]] else []).
Proof.
  unfold findCombos.
  destruct (continues (Number target) (includes DECIMAL_STATS stat) [])
    eqn:Hc.
  - rewrite (subsetSum_continues _ _ _ _ _ Hc). simpl.
    rewrite remove_duplicates_record_nil. reflexivity.
  - rewrite (subsetSum_halts _ _ _ _ _ Hc).
    rewrite remove_duplicates_record_nil. reflexivity.
Qed.

Lemma strict_eq_ge a b : strict_eq a b = true -> num_ge a b = true.
Proof.
  intros H. destruct (strict_eq_cases _ _ H) as [<-|(s1 & s2 & -> & ->)].
  - unfold strict_eq, SFeqb in H. unfold num_ge, SFleb.
    destruct (SFcompare a a) as [[| |]|]; try discriminate; reflexivity.
  - reflexivity.
Qed.

Lemma hits_halts target oneDecimal p :
  hits target oneDecimal p = true -> continues target oneDecimal p = false.
Proof.
  unfold hits, continues. intros H. rewrite (strict_eq_ge _ _ H).
  reflexivity.
Qed.

Lemma search_path_no_extension rolls target oneDecimal p ext :
  search_path rolls target oneDecimal p ->
  ext <> [] ->
  ~ search_path rolls target oneDecimal (p ++ ext).
Proof.
  intros (_ & _ & Hh) Hext (_ & Hk & _).
  destruct ext as [|x ext]; [congruence|].
  specialize (Hk (List.length p)).
  rewrite firstn_app, firstn_all, Nat.sub_diag in Hk. simpl in Hk.
  rewrite app_nil_r, (hits_halts _ _ _ Hh) in Hk.
  rewrite length_app in Hk. simpl in Hk.
  specialize (Hk ltac:(lia)). discriminate.
Qed.

(** A sequence that is recorded is not extended: of the sequences a search
    from the empty sequence records, none is a proper prefix of another. *)
Theorem subsetSum_records_no_extension rolls target oneDecimal raw p ext :
  subsetSum (Some rolls) target [] oneDecimal [] = Normal raw ->
  In p raw ->
  ext <> [] ->
  ~ In (p ++ ext) raw.
Proof.
  intros E Hp Hext Hq.
  destruct (subsetSum_records rolls target oneDecimal) as (raw' & E' & Hraw).
  rewrite E in E'. injection E' as <-.
  apply Hraw in Hp. apply Hraw in Hq.
  exact (search_path_no_extension _ _ _ _ _ Hp Hext Hq).
Qed.

(** The theorem at the candidates 1, 2 and the target 3: the search records
    1, 2 and does not record 1, 2, 1. *)
Lemma subsetSum_records_no_extension_witness :
  let raw := [[lit "1"; lit "1"; lit "1"]; [lit "1"; lit "2"];
              [lit "2"; lit "1"]] in
  subsetSum (Some [lit "1"; lit "2"]) (lit "3") [] false [] = Normal raw
  /\ In [lit "1"; lit "2"] raw
  /\ ~ In ([lit "1"; lit "2"] ++ [lit "1"]) raw.
Proof.
  cbv zeta.
  assert (E : subsetSum (Some [lit "1"; lit "2"]) (lit "3") [] false []
              = Normal [[lit "1"; lit "1"; lit "1"]; [lit "1"; lit "2"];
                        [lit "2"; lit "1"]])
    by (vm_compute; reflexivity).
  assert (Hin : In [lit "1"; lit "2"]
                   [[lit "1"; lit "1"; lit "1"]; [lit "1"; lit "2"];
                    [lit "2"; lit "1"]])
    by (right; left; reflexivity).
  split; [exact E|]. split; [exact Hin|].
  apply (subsetSum_records_no_extension
           [lit "1"; lit "2"] (lit "3") false _ [lit "1"; lit "2"]
           [lit "1"] E Hin).
  discriminate.
Defined.

(** A call of [subsetSum] that returns only appends to [found], and what it
    appends are extensions of its [partials]; this also holds without an
    array of candidates. *)
Theorem subsetSum_only_appends_extensions
  possibleRolls target found oneDecimal partials found' :
  subsetSum possibleRolls target found oneDecimal partials = Normal found' ->
  exists new,
    found' = found ++ new
    /\ forall q, In q new -> exists ext, q = partials ++ ext.
Proof.
  destruct possibleRolls as [rolls|].
  - destruct (subsetSum_appends rolls target oneDecimal
                (7 - List.length partials) partials found (le_n _))
      as (new & E & Hnew).
    rewrite E. intros [= <-]. exists new. split; [reflexivity|].
    intros q Hq. apply Hnew in Hq as (Hr & _).
    apply reaches_iff in Hr as (ext & -> & _). exists ext. reflexivity.
  - rewrite subsetSum_body. cbv zeta. rewrite record_appends.
    assert (Hnew : forall q,
               In q (if hits target oneDecimal partials
                     then [partials] else []) ->
               exists ext, q = partials ++ ext).
    { intros q Hq. destruct (hits target oneDecimal partials);
        [|destruct Hq].
      destruct Hq as [<-|[]]. exists []. symmetry. apply app_nil_r. }
    destruct (num_ge (rounded_sum oneDecimal partials) target);
      [|destruct (6 <? List.length partials); [|discriminate]];
      intros [= <-]; eexists; split; try reflexivity; exact Hnew.
Qed.

(** The theorem at a call in the middle of a search. *)
Lemma subsetSum_only_appends_extensions_witness :
  subsetSum (Some [lit "1"; lit "2"]) (lit "3")
            [[lit "2"; lit "1"]] false [lit "1"]
  = Normal [[lit "2"; lit "1"]; [lit "1"; lit "1"; lit "1"];
            [lit "1"; lit "2"]]
  /\ exists new,
       [[lit "2"; lit "1"]; [lit "1"; lit "1"; lit "1"]; [lit "1"; lit "2"]]
       = [[lit "2"; lit "1"]] ++ new
       /\ forall q, In q new -> exists ext, q = [lit "1"] ++ ext.
Proof.
  split.
  - vm_compute. reflexivity.
  - apply (subsetSum_only_appends_extensions
             (Some [lit "1"; lit "2"]) (lit "3")
             [[lit "2"; lit "1"]] false [lit "1"]).
    vm_compute. reflexivity.
Defined.

(* ===================================================================== *)
(** ** The sort *)
(* ===================================================================== *)

Lemma binary_round_aux_sign s m e l :
  match binary_round_aux prec emax s m e l with
  | S754_zero s' | S754_infinity s' | S754_finite s' _ _ => s' = s
  | S754_nan => True
  end.
Proof.
  unfold binary_round_aux.
  destruct (shr_fexp prec emax m e l) as [mrs' e'].
  destruct (shr_fexp prec emax _ e' loc_Exact) as [mrs'' e''].
  destruct (shr_m mrs''); [reflexivity| |exact I].
  destruct (e'' <=? emax - prec)%Z; reflexivity.
Qed.

(** A difference that rounds to a number above zero is above zero. *)
Lemma binary_normalize_above_zero d e :
  num_gt (binary_normalize prec emax d e false) pos_zero = true ->
  (0 < d)%Z.
Proof.
  destruct d as [|p|p]; [discriminate|lia|].
  unfold binary_normalize, binary_round.
  destruct (shl_align _ _ _) as [mz ez].
  pose proof (binary_round_aux_sign true (Zpos mz) ez loc_Exact) as H.
  destruct (binary_round_aux prec emax true (Zpos mz) ez loc_Exact);
    try subst; discriminate.
Qed.

(** The comparator does not put each of two numbers after the other. *)
Lemma comparator_antisym x y :
  num_gt (comparator x y) pos_zero = true ->
  num_gt (comparator y x) pos_zero = false.
Proof.
  unfold comparator, num_sub.
  destruct x as [sx|sx| |sx mx ex], y as [sy|sy| |sy my ey];
    lazymatch goal with
    | |- context [SFsub _ _ (S754_finite _ _ _) (S754_finite _ _ _)] => idtac
    | _ => repeat match goal with s : bool |- _ => destruct s end;
           cbv; congruence
    end.
  unfold SFsub. rewrite (Z.min_comm ey ex). intros H.
  apply binary_normalize_above_zero in H.
  match goal with |- num_gt ?r _ = false =>
    destruct (num_gt r pos_zero) eqn:E; [|reflexivity] end.
  apply binary_normalize_above_zero in E. lia.
Qed.

Lemma insert_sorted_perm x l : Permutation (insert_sorted x l) (x :: l).
Proof.
  induction l as [|y l IH]; simpl; [reflexivity|].
  destruct (num_gt (comparator x y) pos_zero); [|reflexivity].
  rewrite IH. apply perm_swap.
Qed.

Lemma sort_perm p : Permutation (sort p) p.
Proof.
  induction p as [|x p IH]; simpl; [reflexivity|].
  rewrite insert_sorted_perm. constructor. exact IH.
Qed.

Lemma insert_sorted_ascending x l :
  ascending l = true -> ascending (insert_sorted x l) = true.
Proof.
  induction l as [|y l IH]; intros Hl; [reflexivity|].
  simpl insert_sorted.
  destruct (num_gt (comparator x y) pos_zero) eqn:Hxy.
  - assert (Hl' : ascending l = true).
    { destruct l; [reflexivity|]. simpl in Hl.
      apply andb_true_iff in Hl. apply Hl. }
    specialize (IH Hl').
    destruct l as [|z l].
    + simpl. rewrite (comparator_antisym _ _ Hxy). reflexivity.
    + simpl in Hl. apply andb_true_iff in Hl as (Hyz & _).
      simpl insert_sorted in *.
      destruct (num_gt (comparator x z) pos_zero).
      * change (negb (num_gt (comparator y z) pos_zero)
                && ascending (z :: insert_sorted x l) = true).
        rewrite Hyz, IH. reflexivity.
      * change (negb (num_gt (comparator y x) pos_zero)
                && ascending (x :: z :: l) = true).
        rewrite (comparator_antisym _ _ Hxy), IH. reflexivity.
  - change (negb (num_gt (comparator x y) pos_zero)
            && ascending (y :: l) = true).
    rewrite Hxy, Hl. reflexivity.
Qed.

Lemma sort_ascending p : ascending (sort p) = true.
Proof.
  induction p as [|x p IH]; [reflexivity|].
  simpl. apply insert_sorted_ascending, IH.
Qed.

(** The sort rearranges a combination and loses nothing, and in its result
    no element is followed by one that the comparator puts before it. *)
Theorem sort_rearranges_ascending p :
  Permutation (sort p) p /\ ascending (sort p) = true.
Proof.
  split; [apply sort_perm|apply sort_ascending].
Qed.

(* ===================================================================== *)
(** ** The result and the candidates *)
(* ===================================================================== *)

(** Every combination of the result is in ascending order, and every
    element of it is one of the candidates. *)
Theorem findCombos_draws_from_candidates
  DECIMAL_STATS rolls target stat result :
  findCombos DECIMAL_STATS (Some rolls) target stat = Normal result ->
  forall c, In c result ->
    ascending c = true /\ forall x, In x c -> In x rolls.
Proof.
  intros E c Hc.
  destruct (findCombos_result _ _ _ _ _ E) as (Hsub & _ & _).
  destruct (Hsub c Hc) as (p & (Hall & _ & _) & ->).
  split; [apply sort_ascending|].
  intros x Hx. apply (Permutation_in _ (sort_perm p)) in Hx.
  rewrite Forall_forall in Hall. apply Hall, Hx.
Qed.

(** The theorem at the candidates 2, 1 and the target 3. *)
Lemma findCombos_draws_from_candidates_witness :
  findCombos [] (Some [lit "2"; lit "1"]) (VStr "3") VUndef
  = Normal [[lit "1"; lit "2"]; [lit "1"; lit "1"; lit "1"]]
  /\ forall c, In c [[lit "1"; lit "2"]; [lit "1"; lit "1"; lit "1"]] ->
       ascending c = true /\ forall x, In x c -> In x [lit "2"; lit "1"].
Proof.
  split.
  - vm_compute. reflexivity.
  - apply (findCombos_draws_from_candidates
             [] [lit "2"; lit "1"] (VStr "3") VUndef).
    vm_compute. reflexivity.
Defined.

Lemma search_path_incl rolls1 rolls2 target oneDecimal p :
  incl rolls1 rolls2 ->
  search_path rolls1 target oneDecimal p ->
  search_path rolls2 target oneDecimal p.
Proof.
  intros Hincl (Hall & Hk & Hh). repeat split; try assumption.
  eapply Forall_impl; [|exact Hall]. intros x Hx. apply Hincl, Hx.
Qed.

(** More candidates never lose a combination: when every candidate of one
    array is in another, every key of the first result is a key of the
    second.  So the order of the candidates and their repetitions do not
    change the keys of the result. *)
Theorem findCombos_monotone_in_candidates
  DECIMAL_STATS rolls1 rolls2 target stat result1 result2 :
  incl rolls1 rolls2 ->
  findCombos DECIMAL_STATS (Some rolls1) target stat = Normal result1 ->
  findCombos DECIMAL_STATS (Some rolls2) target stat = Normal result2 ->
  incl (map key_of result1) (map key_of result2).
Proof.
  intros Hincl E1 E2 k Hk.
  destruct (findCombos_result _ _ _ _ _ E1) as (Hsub & _ & _).
  destruct (findCombos_result _ _ _ _ _ E2) as (_ & _ & Hall).
  apply in_map_iff in Hk as (c & <- & Hc).
  destruct (Hsub c Hc) as (p & Hp & ->).
  apply Hall. exact (search_path_incl _ _ _ _ _ Hincl Hp).
Qed.

(** The theorem at the candidates 2 and 1, 2, 2 for the target 4. *)
Lemma findCombos_monotone_in_candidates_witness :
  incl [lit "2"] [lit "1"; lit "2"; lit "2"]
  /\ findCombos [] (Some [lit "2"]) (VStr "4") VUndef
     = Normal [[lit "2"; lit "2"]]
  /\ findCombos [] (Some [lit "1"; lit "2"; lit "2"]) (VStr "4") VUndef
     = Normal [[lit "1"; lit "1"; lit "1"; lit "1"];
               [lit "1"; lit "1"; lit "2"]; [lit "2"; lit "2"]]
  /\ incl (map key_of [[lit "2"; lit "2"]])
          (map key_of [[lit "1"; lit "1"; lit "1"; lit "1"];
                       [lit "1"; lit "1"; lit "2"]; [lit "2"; lit "2"]]).
Proof.
  assert (Hincl : incl [lit "2"] [lit "1"; lit "2"; lit "2"])
    by (intros x [<-|[]]; simpl; auto).
  split; [exact Hincl|]. split; [vm_compute; reflexivity|].
  split; [vm_compute; reflexivity|].
  apply (findCombos_monotone_in_candidates
           [] [lit "2"] [lit "1"; lit "2"; lit "2"] (VStr "4") VUndef).
  - exact Hincl.
  - vm_compute. reflexivity.
  - vm_compute. reflexivity.
Defined.

(** In whole-number mode a target that [Math.round] changes, such as 12.8,
    has no combination: a rounded sum is a whole number. *)
Theorem findCombos_whole_number_mode_needs_whole_target
  DECIMAL_STATS rolls target stat :
  includes DECIMAL_STATS stat = false ->
  strict_eq (Math_round (Number target)) (Number target) = false ->
  findCombos DECIMAL_STATS (Some rolls) target stat = Normal [].
Proof.
  intros Hmode Hnot. apply findCombos_no_path. intros p (_ & _ & Hh).
  unfold hits in Hh. rewrite Hmode in Hh. unfold rounded_sum in Hh.
  destruct (strict_eq_cases _ _ Hh) as [E|(s1 & s2 & E1 & E2)].
  - rewrite <- E, Math_round_idempotent in Hnot.
    rewrite E in Hnot at 2. rewrite E in Hh. congruence.
  - rewrite E2 in Hnot. discriminate.
Qed.

(** The theorem at the target 12.8 and the candidates of [critRate], with
    no stat passed. *)
Lemma findCombos_whole_number_mode_needs_whole_target_witness :
  includes example_DECIMAL_STATS VUndef = false
  /\ strict_eq (Math_round (Number (VStr "12.8"))) (Number (VStr "12.8"))
     = false
  /\ findCombos example_DECIMAL_STATS
                (Some [lit "2.7"; lit "3.1"; lit "3.5"; lit "3.9"])
                (VStr "12.8") VUndef
     = Normal [].
Proof.
  split; [reflexivity|]. split; [reflexivity|].
  apply (findCombos_whole_number_mode_needs_whole_target
           example_DECIMAL_STATS
           [lit "2.7"; lit "3.1"; lit "3.5"; lit "3.9"] (VStr "12.8") VUndef);
    reflexivity.
Defined.

(* ===================================================================== *)
(** ** The estimator from end to end *)
(* ===================================================================== *)

(** As the module is written, [ratePower] returns only for an artifact
    without substats; any substat makes it throw. *)
Theorem ratePower_returns_iff_no_substats
  DECIMAL_STATS ROLLS WEIGHTING a :
  (exists logged,
     snd (ratePower DECIMAL_STATS ROLLS WEIGHTING a) = Normal logged)
  <-> substats a = [].
Proof.
  unfold ratePower, ratePower_with. split.
  - intros (logged & H). destruct (substats a) as [|sub rest];
      [reflexivity|]. simpl in H. discriminate.
  - intros ->. exists []. reflexivity.
Qed.

(** When [ratePower] returns, whatever [findCombos] is bound to, every
    substat has kept its stat and amount and has the weight
    [SUBSTAT_WEIGHTING[stat]] and the combinations its call returned; and the array that is logged holds
    [undefined] for every substat: the evidence is only in the argument. *)
Theorem ratePower_on_return ROLLS WEIGHTING f a logged :
  snd (ratePower_with ROLLS WEIGHTING f a) = Normal logged ->
  logged = repeat VUndef (List.length (substats a))
  /\ Forall2 (rated ROLLS WEIGHTING f) (substats a)
             (substats (fst (ratePower_with ROLLS WEIGHTING f a))).
Proof.
  unfold ratePower_with. intros H.
  pose proof (map_substats_normal ROLLS WEIGHTING f (substats a) logged)
    as Hn.
  destruct (map_substats ROLLS WEIGHTING f (substats a)) as [subs c].
  simpl in *. apply Hn, H.
Qed.

(** The theorem at [TEST_ARTIFACT], with [findCombos] bound to the
    function. *)
Lemma ratePower_on_return_witness :
  let f := Some (findCombos example_DECIMAL_STATS) in
  snd (ratePower_with example_ROLLS example_WEIGHTING f TEST_ARTIFACT)
  = Normal [VUndef; VUndef; VUndef; VUndef]
  /\ [VUndef; VUndef; VUndef; VUndef]
     = repeat VUndef (List.length (substats TEST_ARTIFACT))
  /\ Forall2 (rated example_ROLLS example_WEIGHTING f)
             (substats TEST_ARTIFACT)
             (substats
                (fst (ratePower_with example_ROLLS example_WEIGHTING f
                                     TEST_ARTIFACT))).
Proof.
  cbv zeta. split.
  - vm_compute. reflexivity.
  - apply (ratePower_on_return
             example_ROLLS example_WEIGHTING
             (Some (findCombos example_DECIMAL_STATS)) TEST_ARTIFACT).
    vm_compute. reflexivity.
Defined.

Lemma rate_substat_again ROLLS WEIGHTING f sub :
  rate_substat ROLLS WEIGHTING f (fst (rate_substat ROLLS WEIGHTING f sub))
  = rate_substat ROLLS WEIGHTING f sub.
Proof.
  unfold rate_substat. simpl.
  destruct (call f (get ROLLS (stat sub)) (amount sub) VUndef) eqn:E;
    simpl; rewrite E; reflexivity.
Qed.

Lemma map_substats_again ROLLS WEIGHTING f subs :
  map_substats ROLLS WEIGHTING f (fst (map_substats ROLLS WEIGHTING f subs))
  = map_substats ROLLS WEIGHTING f subs.
Proof.
  induction subs as [|sub rest IH]; [reflexivity|].
  simpl. pose proof (rate_substat_again ROLLS WEIGHTING f sub) as Hs.
  destruct (rate_substat ROLLS WEIGHTING f sub) as [sub' [v|e]]; simpl in *.
  - destruct (map_substats ROLLS WEIGHTING f rest) as [rest' [vs|e]];
      simpl in *; rewrite Hs, IH; reflexivity.
  - rewrite Hs. reflexivity.
Qed.

(** Rating an artifact that [ratePower] has already been called on gives
    the same artifact and the same outcome again: the weights and the
    combinations are written anew from the stat and the amount, which the
    call does not change. *)
Theorem ratePower_twice ROLLS WEIGHTING f a :
  ratePower_with ROLLS WEIGHTING f
                 (fst (ratePower_with ROLLS WEIGHTING f a))
  = ratePower_with ROLLS WEIGHTING f a.
Proof.
  unfold ratePower_with.
  pose proof (map_substats_again ROLLS WEIGHTING f (substats a)) as H.
  destruct (map_substats ROLLS WEIGHTING f (substats a)) as [subs c].
  simpl in *. rewrite H. reflexivity.
Qed.

(* ===================================================================== *)
(** ** When a call throws, and how large a result is *)
(* ===================================================================== *)

(** [findCombos] throws exactly when it is given no array of candidates and
    a target that is above zero or not a number; on an array it never
    throws. *)
Theorem findCombos_throws_iff DECIMAL_STATS possibleRolls target stat :
  (exists e, findCombos DECIMAL_STATS possibleRolls target stat = Throw e)
  <-> (possibleRolls = None /\ num_ge pos_zero (Number target) = false).
Proof.
  split.
  - intros (e & H). destruct possibleRolls as [rolls|].
    + destruct (findCombos_array DECIMAL_STATS rolls target stat)
        as (raw & E & _).
      rewrite E in H. discriminate.
    + split; [reflexivity|].
      destruct (num_ge pos_zero (Number target)) eqn:Hge; [|reflexivity].
      unfold findCombos in H. rewrite subsetSum_halts in H; [discriminate|].
      unfold continues. rewrite rounded_sum_nil, Hge. reflexivity.
  - intros (-> & Hge). exists TypeError_not_iterable.
    unfold findCombos. rewrite subsetSum_body. cbv zeta.
    rewrite rounded_sum_nil, Hge. reflexivity.
Qed.

Lemma map_substats_throw ROLLS WEIGHTING f subs e :
  snd (map_substats ROLLS WEIGHTING f subs) = Throw e ->
  exists sub, In sub subs
    /\ call f (get ROLLS (stat sub)) (amount sub) VUndef = Throw e.
Proof.
  induction subs as [|sub rest IH]; simpl; [discriminate|].
  unfold rate_substat. simpl.
  destruct (call f (get ROLLS (stat sub)) (amount sub) VUndef)
    as [r|e'] eqn:E.
  - destruct (map_substats ROLLS WEIGHTING f rest) as [rest' [vs|e']];
      simpl in *; [discriminate|].
    intros [= <-]. destruct (IH eq_refl) as (s & Hs & Hc).
    exists s. split; [right; exact Hs|exact Hc].
  - simpl. intros [= <-]. exists sub. split; [left; reflexivity|exact E].
Qed.

(** [ratePower] throws nothing of its own: an error it throws is the error
    that the call to the finder threw for one of the substats. *)
Theorem ratePower_throws_only_from_finder ROLLS WEIGHTING f a e :
  snd (ratePower_with ROLLS WEIGHTING f a) = Throw e ->
  exists sub, In sub (substats a)
    /\ call f (get ROLLS (stat sub)) (amount sub) VUndef = Throw e.
Proof.
  unfold ratePower_with. intros H.
  pose proof (map_substats_throw ROLLS WEIGHTING f (substats a) e) as Ht.
  destruct (map_substats ROLLS WEIGHTING f (substats a)) as [subs c].
  simpl in *. apply Ht, H.
Qed.

(** The theorem at [TEST_ARTIFACT] and the module as it is written. *)
Lemma ratePower_throws_only_from_finder_witness :
  snd (ratePower_with example_ROLLS example_WEIGHTING
                      (required_findCombos example_DECIMAL_STATS)
                      TEST_ARTIFACT)
  = Throw TypeError_not_a_function
  /\ exists sub, In sub (substats TEST_ARTIFACT)
       /\ call (required_findCombos example_DECIMAL_STATS)
               (get example_ROLLS (stat sub)) (amount sub) VUndef
          = Throw TypeError_not_a_function.
Proof.
  split.
  - reflexivity.
  - apply (ratePower_throws_only_from_finder
             example_ROLLS example_WEIGHTING
             (required_findCombos example_DECIMAL_STATS) TEST_ARTIFACT).
    reflexivity.
Defined.

Lemma flat_map_length_const {A B : Type} (f : A -> list B) (l : list A) n :
  (forall x, List.length (f x) = n) ->
  List.length (flat_map f l) = List.length l * n.
Proof.
  intros Hf. induction l as [|x l IH]; simpl; [reflexivity|].
  rewrite length_app, Hf, IH. reflexivity.
Qed.

Lemma sequences_length rolls k :
  List.length (sequences rolls k) = sequences_count (List.length rolls) k.
Proof.
  induction k as [|k IH]; simpl; [reflexivity|].
  rewrite (flat_map_length_const _ _ (sequences_count (List.length rolls) k)).
  - reflexivity.
  - intros x. rewrite length_map. exact IH.
Qed.

(** A result over [n] candidates holds at most [1 + n + ... + n^7]
    combinations. *)
Theorem findCombos_result_size DECIMAL_STATS rolls target stat result :
  findCombos DECIMAL_STATS (Some rolls) target stat = Normal result ->
  List.length result <= sequences_count (List.length rolls) 7.
Proof.
  intros E.
  destruct (findCombos_result _ _ _ _ _ E) as (Hsub & Hnd & _).
  rewrite <- sequences_length.
  rewrite <- (length_map key_of result).
  rewrite <- (length_map (fun p => key_of (sort p)) (sequences rolls 7)).
  apply NoDup_incl_length; [exact Hnd|].
  intros k Hk. apply in_map_iff in Hk as (c & <- & Hc).
  destruct (Hsub c Hc) as (p & Hp & ->).
  apply in_map_iff. exists p. split; [reflexivity|].
  destruct (search_path_within_bounds _ _ _ _ Hp) as (Hall & Hlen).
  apply sequences_complete; assumption.
Qed.

(** The theorem at the candidates 1, 2 and the target 3. *)
Lemma findCombos_result_size_witness :
  findCombos [] (Some [lit "1"; lit "2"]) (VStr "3") VUndef
  = Normal [[lit "1"; lit "1"; lit "1"]; [lit "1"; lit "2"]]
  /\ List.length [[lit "1"; lit "1"; lit "1"]; [lit "1"; lit "2"]]
     <= sequences_count (List.length [lit "1"; lit "2"]) 7.
Proof.
  split.
  - vm_compute. reflexivity.
  - apply (findCombos_result_size [] [lit "1"; lit "2"] (VStr "3") VUndef).
    vm_compute. reflexivity.
Defined.
